(** * ExpoCLI query executor: a shallow embedding and its verified properties

    The development follows the query executor of ExpoCLI (namespace
    [expocli], class [QueryExecutor]).  The C++ code works on
    pugixml node handles, throws and catches exceptions, writes warnings to
    [std::cerr], sorts with [std::sort] and fans files out to worker threads.
    Here:

    - a pugixml document is an [xml_tree]; a node handle ([pugi::xml_node]) is
      either null or a position in the document, so that handle comparison
      ([a == b], [n.parent() == node]) is position equality;
    - an exception is the [inr] of a sum, [try]/[catch] is a [match];
    - [std::cerr] is an explicit list of log lines;
    - the collaborators whose code is not part of the executor (the XML
      navigator, the loader, the filesystem and [std::sort]) are fields of
      records the executor is parameterised by;
    - worker threads are an interleaving of atomic per-file steps, driven by
      an explicit schedule. *)

From Stdlib Require Import List String Ascii Bool Arith ZArith NArith Lia
  Permutation.
From Stdlib Require Import Floats.SpecFloat Sorting.Sorted.
Import ListNotations.

Set Implicit Arguments.

Local Open Scope string_scope.
Local Open Scope list_scope.

(* ================================================================== *)
(** * The abstract syntax tree consumed by the executor ([parser/ast.h]) *)
(* ================================================================== *)

Module Ast.

(** [FieldPath]: the path components and the [FILE_NAME] flag, as the
    executor reads them. *)
Record FieldPath : Type := mkFieldPath {
  components : list string;
  include_filename : bool
}.

(** The default-constructed [FieldPath()]. *)
Definition emptyFieldPath : FieldPath := mkFieldPath [] false.

(** Modelled from the spec: the enumeration is declared in [parser/ast.h],
    which is not among the sources; the executor only names [IS_NULL] and
    [IS_NOT_NULL], the other operators are those of the data model. *)
Inductive ComparisonOp : Type :=
| EQ | NE | LT | LE | GT | GE | IS_NULL | IS_NOT_NULL.

(** Modelled from the spec: the connector of a logical expression, declared
    in [parser/ast.h]. *)
Inductive LogicalOp : Type := AND | OR.

(** Modelled from the spec: the class declarations are in [parser/ast.h].
    [WhereExpr] is a two-class hierarchy which the executor discriminates by
    [dynamic_cast]: [WhereCondition], of which it reads [field] and [op],
    and [WhereLogical], of which it reads [left] and [right]; the literal,
    the numeric hint and the connector are those of the data model.  The
    operands of a [WhereLogical] are owning pointers, which the executor
    tests for null. *)
#[warnings="-register-all"]
Inductive WhereExpr : Type :=
| WhereCondition (field : FieldPath) (op : ComparisonOp)
                 (literal : option string) (numeric_hint : bool)
| WhereLogical (connector : LogicalOp) (left right : option WhereExpr).

(** Modelled from the spec: declared in [parser/ast.h]; the executor reads
    [path], the variable name is that of the data model. *)
Record ForClause : Type := mkForClause {
  variable : string;
  path : FieldPath
}.

(** [Query], with the members the executor reads; [where] (here [where_],
    the name being reserved) is a nullable owning pointer and [limit] an
    [int] that is negative when no LIMIT was given. *)
Record Query : Type := mkQuery {
  select_fields : list FieldPath;
  from_path : string;
  where_ : option WhereExpr;
  for_clauses : list ForClause;
  order_by_fields : list string;
  limit : Z
}.

End Ast.
Export Ast.

(* ================================================================== *)
(** * pugixml documents and node handles *)
(* ================================================================== *)

Module Pugi.

Inductive xml_node_type : Type :=
| node_null | node_document | node_element | node_pcdata | node_cdata
| node_comment | node_pi | node_declaration | node_doctype.

Definition xml_node_type_eqb (a b : xml_node_type) : bool :=
  match a, b with
  | node_null, node_null | node_document, node_document
  | node_element, node_element | node_pcdata, node_pcdata
  | node_cdata, node_cdata | node_comment, node_comment
  | node_pi, node_pi | node_declaration, node_declaration
  | node_doctype, node_doctype => true
  | _, _ => false
  end.

(** A node of the document tree: its type, name, value and children. *)
#[warnings="-register-all"]
Inductive xml_tree : Type :=
| XmlTree (ty : xml_node_type) (nm val : string) (kids : list xml_tree).

Definition tree_type (t : xml_tree) := let 'XmlTree ty _ _ _ := t in ty.
Definition tree_name (t : xml_tree) := let 'XmlTree _ nm _ _ := t in nm.
Definition tree_value (t : xml_tree) := let 'XmlTree _ _ v _ := t in v.
Definition tree_kids (t : xml_tree) := let 'XmlTree _ _ _ ks := t in ks.

(** [pugi::xml_node]: the null handle, or the child indices leading from
    the document node to the node. *)
Definition xml_node : Type := option (list nat).

Definition null_node : xml_node := None.

(** The handle of the document node itself ([*doc]). *)
Definition doc_node : xml_node := Some [].

Fixpoint subtree (t : xml_tree) (pos : list nat) : option xml_tree :=
  match pos with
  | [] => Some t
  | i :: pos' =>
      match nth_error (tree_kids t) i with
      | Some c => subtree c pos'
      | None => None
      end
  end.

Definition deref (doc : xml_tree) (n : xml_node) : option xml_tree :=
  match n with
  | None => None
  | Some pos => subtree doc pos
  end.

(** [operator bool] / [operator!] of a handle. *)
Definition is_set (n : xml_node) : bool :=
  match n with Some _ => true | None => false end.

Definition pos_eqb (p q : list nat) : bool :=
  if list_eq_dec Nat.eq_dec p q then true else false.

(** [operator==] on handles. *)
Definition node_eqb (a b : xml_node) : bool :=
  match a, b with
  | None, None => true
  | Some p, Some q => pos_eqb p q
  | _, _ => false
  end.

Definition type (doc : xml_tree) (n : xml_node) : xml_node_type :=
  match deref doc n with Some t => tree_type t | None => node_null end.

Definition name (doc : xml_tree) (n : xml_node) : string :=
  match deref doc n with Some t => tree_name t | None => "" end.

(** [xml_node::parent()]: null for the null handle and for the document. *)
Definition parent (n : xml_node) : xml_node :=
  match n with
  | None | Some [] => None
  | Some pos => Some (removelast pos)
  end.

(** [xml_node::children()], as handles, in document order. *)
Definition children (doc : xml_tree) (n : xml_node) : list xml_node :=
  match n, deref doc n with
  | Some pos, Some t =>
      map (fun i => Some (pos ++ [i])) (seq 0 (List.length (tree_kids t)))
  | _, _ => []
  end.

Definition is_text (t : xml_tree) : bool :=
  match tree_type t with
  | node_pcdata | node_cdata => true
  | _ => false
  end.

(** [xml_node::child_value()]: the value of the first PCDATA/CDATA child,
    or the empty string. *)
Definition child_value (doc : xml_tree) (n : xml_node) : string :=
  match deref doc n with
  | Some t =>
      match find is_text (tree_kids t) with
      | Some c => tree_value c
      | None => ""
      end
  | None => ""
  end.

(** All positions below (and including) [pos], depth first, pre-order. *)
Fixpoint preorder (t : xml_tree) (pos : list nat) {struct t}
  : list (list nat) :=
  match t with
  | XmlTree _ _ _ kids =>
      pos ::
      (fix over_kids (ks : list xml_tree) (i : nat) {struct ks}
         : list (list nat) :=
         match ks with
         | [] => []
         | k :: ks' => preorder k (pos ++ [i]) ++ over_kids ks' (S i)
         end) kids 0
  end.

(** Convenience constructors for documents. *)
Definition text (s : string) : xml_tree := XmlTree node_pcdata "" s [].
Definition element (nm : string) (kids : list xml_tree) : xml_tree :=
  XmlTree node_element nm "" kids.
Definition document (kids : list xml_tree) : xml_tree :=
  XmlTree node_document "" "" kids.

End Pugi.
Export Pugi.

(* ================================================================== *)
(** * The parts of the C++ standard library the executor relies on *)
(* ================================================================== *)

Module Cxx.

(** ** [double]: IEEE 754 binary64, as specified by [SpecFloat] *)

Definition prec : Z := 53.
Definition emax : Z := 1024.

Definition double : Type := spec_float.

(** [a < b] on doubles. *)
Definition double_lt (a b : double) : bool := SFltb a b.

(** ** [std::string] comparison

    [operator<] compares lexicographically with [char_traits<char>], that
    is, by unsigned character code; [operator==] is equality. *)
Definition string_lt (a b : string) : bool := String.ltb a b.
Definition string_eq (a b : string) : bool := String.eqb a b.

(** ** [std::stod]

    [std::stod(s)] runs [strtod] on [s] and throws [std::invalid_argument]
    when no conversion could be performed and [std::out_of_range] when
    [strtod] reports [ERANGE].  [strtod] (C locale) skips white space,
    reads an optional sign and then the longest prefix that is a decimal
    floating constant, a hexadecimal floating constant, [INF]/[INFINITY]
    or [NAN]/[NAN(...)] (letters in either case); what follows the prefix
    is ignored.  The value is rounded to the nearest double, ties to
    even. *)

Inductive stod_result : Type :=
| stod_value (d : double)
| invalid_argument
| out_of_range.

Definition isspace (c : ascii) : bool :=
  let n := N_of_ascii c in
  (N.eqb n 32 || (N.leb 9 n && N.leb n 13))%bool.

Fixpoint skip_space (s : string) : string :=
  match s with
  | String c s' => if isspace c then skip_space s' else s
  | EmptyString => s
  end.

(** Optional sign: [true] for a leading minus. *)
Definition read_sign (s : string) : bool * string :=
  match s with
  | String "-" s' => (true, s')
  | String "+" s' => (false, s')
  | _ => (false, s)
  end.

Definition digit_value (c : ascii) : option N :=
  let n := N_of_ascii c in
  if (N.leb 48 n && N.leb n 57)%bool then Some (n - 48)%N else None.

Definition hex_value (c : ascii) : option N :=
  let n := N_of_ascii c in
  if (N.leb 48 n && N.leb n 57)%bool then Some (n - 48)%N
  else if (N.leb 65 n && N.leb n 70)%bool then Some (n - 55)%N
  else if (N.leb 97 n && N.leb n 102)%bool then Some (n - 87)%N
  else None.

(** Reads the longest run of digits in base [base]; returns the
    accumulated number, how many digits were read and the rest. *)
Fixpoint read_digits (digit : ascii -> option N) (base : N) (s : string)
  (acc : N) (count : nat) : N * nat * string :=
  match s with
  | String c s' =>
      match digit c with
      | Some d => read_digits digit base s' (acc * base + d)%N (S count)
      | None => (acc, count, s)
      end
  | EmptyString => (acc, count, s)
  end.

(** A significand: digits with at most one radix point.  Returns the
    digits read as one number, the count of all digits and the count of
    those after the point. *)
Definition read_significand (digit : ascii -> option N) (base : N)
  (s : string) : N * nat * nat :=
  let '(m1, n1, rest) := read_digits digit base s 0%N 0 in
  match rest with
  | String "." rest' =>
      let '(m2, n12, _) := read_digits digit base rest' m1 n1 in
      (m2, n12, n12 - n1)
  | _ => (m1, n1, 0)
  end.

(** What follows the significand, for the exponent part. *)
Definition after_significand (digit : ascii -> option N) (base : N)
  (s : string) : string :=
  let '(_, _, rest) := read_digits digit base s 0%N 0 in
  match rest with
  | String "." rest' =>
      let '(_, _, rest'') := read_digits digit base rest' 0%N 0 in rest''
  | _ => rest
  end.

Definition lower (c : ascii) : ascii :=
  let n := N_of_ascii c in
  if (N.leb 65 n && N.leb n 90)%bool then ascii_of_N (n + 32) else c.

(** The exponent part [e[+-]ddd] (or [p[+-]ddd]); it counts only when at
    least one digit follows, otherwise the exponent is 0. *)
Definition read_exponent (marker : ascii) (s : string) : Z :=
  match s with
  | String c s' =>
      if Ascii.eqb (lower c) marker then
        let '(neg, s'') := read_sign s' in
        let '(e, n, _) := read_digits digit_value 10 s'' 0%N 0 in
        match n with
        | O => 0%Z
        | S _ => if neg then (- Z.of_N e)%Z else Z.of_N e
        end
      else 0%Z
  | EmptyString => 0%Z
  end.

(** Case-insensitive prefix test. *)
Fixpoint starts_with_ci (p s : string) : bool :=
  match p, s with
  | EmptyString, _ => true
  | String a p', String b s' =>
      (Ascii.eqb a (lower b) && starts_with_ci p' s')%bool
  | String _ _, EmptyString => false
  end.

(** The double nearest to [m * 2^e2 * 10^e10], for [m > 0]. *)
Definition round_scaled (neg : bool) (m : positive) (e2 e10 : Z) : double :=
  match e10 with
  | Zneg p =>
      SFdiv prec emax (S754_finite neg m e2)
            (S754_finite false (Pos.pow 10 p) 0)
  | _ =>
      binary_round prec emax neg
        (m * Z.to_pos (Z.pow 10 e10))%positive e2
  end.

(** Whether the finite double [d] is exactly [m * 2^e2 * 10^e10]. *)
Definition is_exact (d : double) (m : positive) (e2 e10 : Z) : bool :=
  match d with
  | S754_finite _ md ed =>
      let lhs := (Zpos md * Z.pow 2 (Z.max 0 (ed - e2))
                  * Z.pow 10 (Z.max 0 (- e10)))%Z in
      let rhs := (Zpos m * Z.pow 2 (Z.max 0 (e2 - ed))
                  * Z.pow 10 (Z.max 0 e10))%Z in
      Z.eqb lhs rhs
  | _ => false
  end.

(** Zero or subnormal. *)
Definition is_tiny (d : double) : bool :=
  match d with
  | S754_zero _ => true
  | S754_finite _ md ed =>
      (Z.eqb ed (emin prec emax) && Z.ltb (Zpos (digits2_pos md)) prec)%bool
  | _ => false
  end.

(** The conversion of a non-zero magnitude: [ERANGE] on overflow, and on
    an underflow that loses precision. *)
Definition convert (neg : bool) (m : positive) (e2 e10 : Z) : stod_result :=
  let d := round_scaled neg m e2 e10 in
  match d with
  | S754_infinity _ => out_of_range
  | _ =>
      if (is_tiny d && negb (is_exact d m e2 e10))%bool then out_of_range
      else stod_value d
  end.

Definition convert_N (neg : bool) (m : N) (e2 e10 : Z) : stod_result :=
  match m with
  | N0 => stod_value (S754_zero neg)
  | Npos p => convert neg p e2 e10
  end.

Definition read_decimal (neg : bool) (s : string) : stod_result :=
  let '(m, n, nfrac) := read_significand digit_value 10 s in
  match n with
  | O => invalid_argument
  | S _ =>
      let e := read_exponent "e" (after_significand digit_value 10 s) in
      convert_N neg m 0 (e - Z.of_nat nfrac)
  end.

Definition read_hexadecimal (neg : bool) (s : string) : option stod_result :=
  match s with
  | String "0" (String x s') =>
      if Ascii.eqb (lower x) "x" then
        let '(m, n, nfrac) := read_significand hex_value 16 s' in
        match n with
        | O => None
        | S _ =>
            let e := read_exponent "p" (after_significand hex_value 16 s') in
            Some (convert_N neg m (e - 4 * Z.of_nat nfrac) 0)
        end
      else None
  | _ => None
  end.

Definition stod (str : string) : stod_result :=
  let '(neg, s) := read_sign (skip_space str) in
  if starts_with_ci "inf" s then stod_value (S754_infinity neg)
  else if starts_with_ci "nan" s then stod_value S754_nan
  else
    match read_hexadecimal neg s with
    | Some r => r
    | None => read_decimal neg s
    end.

(** ** [std::filesystem::path(p).filename().string()]: what follows the
    last directory separator. *)
Fixpoint filename_from (s acc : string) : string :=
  match s with
  | EmptyString => acc
  | String c s' =>
      if Ascii.eqb c "/" then filename_from s' EmptyString
      else filename_from s' (String.append acc (String c EmptyString))
  end.

Definition filename (p : string) : string := filename_from p EmptyString.

End Cxx.

(* ================================================================== *)
(** * Collaborators of the executor *)
(* ================================================================== *)

(** ** [XmlNavigator]: the interface the executor calls *)

Module XmlNavigator.

(** [struct XmlResult]. *)
Record XmlResult : Type := mkXmlResult {
  filename : string;
  value : string
}.

(** The static member functions the executor uses.  Every one of them
    works on handles of one document, which is passed along; the output
    vector of [findNodesByPartialPath] is its result. *)
Record Ops : Type := mkOps {
  extractValues : xml_tree -> string -> FieldPath -> list XmlResult;
  findFirstElementByName : xml_tree -> xml_node -> string -> xml_node;
  findNodesByPartialPath :
    xml_tree -> xml_node -> list string -> list xml_node;
  evaluateWhereExpr : xml_tree -> xml_node -> WhereExpr -> nat -> bool;
  countMatchingPaths : xml_tree -> list string -> Z
}.

End XmlNavigator.

(** ** [XmlLoader], the filesystem, [std::sort] and the hardware *)

Module Host.

(** [XmlLoader::load] yields the parsed document or throws a
    [std::exception] (the [inr] carries [what()]);
    [XmlLoader::isXmlFile] sniffs the file type. *)
Record XmlLoader : Type := mkXmlLoader {
  load : string -> xml_tree + string;
  isXmlFile : string -> bool
}.

(** One entry met by [std::filesystem::directory_iterator]. *)
Record directory_entry : Type := mkEntry {
  entry_path : string;
  entry_is_regular_file : bool
}.

(** What [std::filesystem] reports for a path: a regular file; a
    directory, with the entries its iteration yields and the
    [filesystem_error] that ends the iteration early, if any; something
    else (also a missing path); or a [filesystem_error] on the first
    query. *)
Inductive path_status : Type :=
| regular_file
| directory (entries : list directory_entry) (failure : option string)
| other_path
| filesystem_error (what : string).

Definition ResultRow : Type := list (string * string).

(** The machine the executor runs on.  [std_sort comp rows] is what
    [std::sort(rows.begin(), rows.end(), comp)] leaves in [rows], and an
    empty range is left empty; [hardware_concurrency] is
    [std::thread::hardware_concurrency()]. *)
Record World : Type := mkWorld {
  nav : XmlNavigator.Ops;
  loader : XmlLoader;
  status : string -> path_status;
  std_sort : (ResultRow -> ResultRow -> bool) -> list ResultRow ->
             list ResultRow;
  std_sort_nil : forall comp, std_sort comp [] = [];
  hardware_concurrency : nat
}.

End Host.
Export Host.

(** ** The navigator as the specification describes it *)

Module SpecNavigator.
Import XmlNavigator.

(** The positions strictly below a node, in document order. *)
Definition descendants (doc : xml_tree) (n : xml_node) : list (list nat) :=
  match n with
  | Some pos =>
      match subtree doc pos with
      | Some t => tl (preorder t pos)
      | None => []
      end
  | None => []
  end.

Definition is_element_named (doc : xml_tree) (nm : string)
  (pos : list nat) : bool :=
  (xml_node_type_eqb (type doc (Some pos)) node_element
   && String.eqb (name doc (Some pos)) nm)%bool.

(** Modelled from the spec: [XmlNavigator::findFirstElementByName], whose
    body is not among the sources: the first descendant element, depth
    first and in pre-order, whose tag equals the given name. *)
Definition findFirstElementByName (doc : xml_tree) (node : xml_node)
  (nm : string) : xml_node :=
  find (is_element_named doc nm) (descendants doc node).

(** Walking up from a node through its ancestors reproduces the
    components, last component first. *)
Fixpoint matches_upwards (doc : xml_tree) (rev_components : list string)
  (n : xml_node) : bool :=
  match rev_components with
  | [] => true
  | c :: cs =>
      match n with
      | Some pos =>
          (is_element_named doc c pos && matches_upwards doc cs (parent n))%bool
      | None => false
      end
  end.

(** Modelled from the spec: [XmlNavigator::findNodesByPartialPath], whose
    body is not among the sources: every descendant node, in document
    order, at which the component sequence ends when read as a suffix of
    the node's ancestry; the empty component list matches nothing. *)
Definition findNodesByPartialPath (doc : xml_tree) (node : xml_node)
  (comps : list string) : list xml_node :=
  match comps with
  | [] => []
  | _ =>
      map (@Some (list nat))
        (filter (fun pos => matches_upwards doc (rev comps) (Some pos))
                (descendants doc node))
  end.

(** Modelled from the spec: [XmlNavigator::countMatchingPaths], whose body
    is not among the sources: the number of distinct nodes matching the
    path. *)
Definition countMatchingPaths (doc : xml_tree) (comps : list string) : Z :=
  Z.of_nat (List.length (findNodesByPartialPath doc doc_node comps)).

(** Modelled from the spec: [XmlNavigator::extractValues], whose body is
    not among the sources: all values matching the field across the whole
    document; the source-identifier field yields the file's name. *)
Definition extractValues (doc : xml_tree) (fname : string)
  (field : FieldPath) : list XmlResult :=
  if include_filename field then [mkXmlResult fname fname]
  else
    map (fun n => mkXmlResult fname (child_value doc n))
        (findNodesByPartialPath doc doc_node (components field)).

(** The node a condition's field resolves to, relative to [node], after
    skipping the [depth] components already matched. *)
Definition resolveField (doc : xml_tree) (node : xml_node)
  (field : FieldPath) (depth : nat) : xml_node :=
  match skipn depth (components field) with
  | [] => null_node
  | [c] => findFirstElementByName doc node c
  | comps => hd null_node (findNodesByPartialPath doc node comps)
  end.

Definition compareNumbers (op : ComparisonOp) (a b : Cxx.double) : bool :=
  match op with
  | EQ => SFeqb a b
  | NE => negb (SFeqb a b)
  | LT => SFltb a b
  | LE => SFleb a b
  | GT => SFltb b a
  | GE => SFleb b a
  | IS_NULL | IS_NOT_NULL => false
  end.

Definition compareStrings (op : ComparisonOp) (a b : string) : bool :=
  match op with
  | EQ => String.eqb a b
  | NE => negb (String.eqb a b)
  | LT => String.ltb a b
  | LE => String.leb a b
  | GT => String.ltb b a
  | GE => String.leb b a
  | IS_NULL | IS_NOT_NULL => false
  end.

(** Numeric comparison when both operands parse as numbers, ordinal string
    comparison otherwise. *)
Definition compareValues (nodeValue targetValue : string)
  (op : ComparisonOp) : bool :=
  match Cxx.stod nodeValue, Cxx.stod targetValue with
  | Cxx.stod_value a, Cxx.stod_value b => compareNumbers op a b
  | _, _ => compareStrings op nodeValue targetValue
  end.

Definition evaluateCondition (doc : xml_tree) (node : xml_node)
  (field : FieldPath) (op : ComparisonOp) (literal : option string)
  (depth : nat) : bool :=
  let resolved := resolveField doc node field depth in
  match op with
  | IS_NULL => negb (is_set resolved)
  | IS_NOT_NULL => is_set resolved
  | _ =>
      (is_set resolved
       && compareValues (child_value doc resolved)
            (match literal with Some s => s | None => "" end) op)%bool
  end.

(** Modelled from the spec: [XmlNavigator::evaluateWhereExpr], whose body
    is not among the sources: a condition resolves its field relative to
    the node ([IS_NULL] holds iff it is unresolved, a comparison needs a
    resolved value); [AND] and [OR] combine both sides on the same node
    and depth. *)
Fixpoint evaluateWhereExpr (doc : xml_tree) (node : xml_node)
  (expr : WhereExpr) (depth : nat) {struct expr} : bool :=
  match expr with
  | WhereCondition field op literal _ =>
      evaluateCondition doc node field op literal depth
  | WhereLogical connector l r =>
      let side (e : option WhereExpr) :=
        match e with
        | Some e' => evaluateWhereExpr doc node e' depth
        | None => false
        end in
      match connector with
      | AND => if side l then side r else false
      | OR => if side l then true else side r
      end
  end.

Definition ops : Ops :=
  mkOps extractValues findFirstElementByName findNodesByPartialPath
        evaluateWhereExpr countMatchingPaths.

End SpecNavigator.

(* ================================================================== *)
(** * [QueryExecutor] *)
(* ================================================================== *)

Module QueryExecutor.
Import XmlNavigator.

(** The rows returned by a call together with the lines it wrote to
    [std::cerr]. *)
Record Run : Type := mkRun {
  allResults : list ResultRow;
  cerr : list string
}.

(** [struct ExecutionStats]; [execution_time_seconds], a wall-clock
    measurement, is left out. *)
Record ExecutionStats : Type := mkStats {
  total_files : nat;
  thread_count : nat;
  used_threading : bool
}.

(** What a call of [executeWithProgress] leaves behind: the returned rows,
    [std::cerr], the arguments of every call of the progress callback, and
    the statistics block (when one was passed). *)
Record ProgressRun : Type := mkProgressRun {
  rows : list ResultRow;
  warnings : list string;
  progress_calls : list (nat * nat * nat);
  stats_out : option ExecutionStats
}.

(** The events an execution of the thread pool is made of: worker
    [threadId] handles its next file, or the progress thread polls the
    counter of completed files. *)
Inductive sched_event : Type :=
| run_worker (threadId : nat)
| poll_progress.

(** The shared state of [executeMultithreaded]: for every worker the file
    indices still ahead of it, the result vector guarded by
    [resultsMutex], [std::cerr], the atomic counter and the progress
    calls made so far. *)
Record Pool : Type := mkPool {
  pending : list (list nat);
  merged : list ResultRow;
  pool_cerr : list string;
  completed : nat;
  polled : list (nat * nat * nat)
}.

(** Helper to extract a [FieldPath] from any [WhereExpr] (the first
    condition's field). *)
Fixpoint extractFieldPathFromExpr (expr : WhereExpr) : FieldPath :=
  match expr with
  | WhereCondition field _ _ _ => field
  | WhereLogical _ l _ =>
      match l with
      | Some e => extractFieldPathFromExpr e
      | None => emptyFieldPath
      end
  end.

Definition extractFieldPathFromWhere (expr : option WhereExpr) : FieldPath :=
  match expr with
  | None => emptyFieldPath
  | Some e => extractFieldPathFromExpr e
  end.

(** [v.back()] and [v[0]] of a component vector.  On an empty vector both
    are undefined in C++; the parser never builds a field without
    components, and the model reads the empty string there. *)
Definition back (v : list string) : string := last v "".
Definition front (v : list string) : string := nth 0 v "".

(** The column name of a select field. *)
Definition fieldName (field : FieldPath) : string :=
  if include_filename field then "FILE_NAME" else back (components field).

(** [findElements], the recursive lambda of [processFileWithForClauses]:
    every element with the given name, depth first. *)
Fixpoint findElements (elementName : string) (t : xml_tree)
  (pos : list nat) {struct t} : list xml_node :=
  match t with
  | XmlTree ty nm _ kids =>
      (if (xml_node_type_eqb ty node_element && String.eqb nm elementName)%bool
       then [Some pos] else [])
      ++ (fix over_kids (ks : list xml_tree) (i : nat) {struct ks}
            : list xml_node :=
            match ks with
            | [] => []
            | k :: ks' =>
                findElements elementName k (pos ++ [i]) ++ over_kids ks' (S i)
            end) kids 0
  end.

(** [searchTree], the recursive lambda of [processFile]: what [visit]
    appends at the node, then the children in order. *)
Fixpoint searchTree (visit : xml_node -> list ResultRow) (t : xml_tree)
  (pos : list nat) {struct t} : list ResultRow :=
  match t with
  | XmlTree _ _ _ kids =>
      visit (Some pos)
      ++ (fix over_kids (ks : list xml_tree) (i : nat) {struct ks}
            : list ResultRow :=
            match ks with
            | [] => []
            | k :: ks' =>
                searchTree visit k (pos ++ [i]) ++ over_kids ks' (S i)
            end) kids 0
  end.

(** [getOptimalThreadCount], given [hardware_concurrency()]. *)
Definition getOptimalThreadCount (hardware : nat) : nat :=
  let hwThreads := if Nat.eqb hardware 0 then 4 else hardware in
  Nat.min hwThreads 16.

Definition shouldUseThreading (fileCount : nat) : bool :=
  let threshold := 5 in
  Nat.leb threshold fileCount.

(** The file indices a worker visits:
    [for (fileIdx = threadId; fileIdx < size; fileIdx += threadCount)].
    [fuel] bounds the number of iterations. *)
Fixpoint stridedIndices (fuel fileIdx size threadCount : nat) : list nat :=
  match fuel with
  | O => []
  | S fuel' =>
      if Nat.ltb fileIdx size
      then fileIdx :: stridedIndices fuel' (fileIdx + threadCount) size threadCount
      else []
  end.

Definition workerFiles (size threadCount threadId : nat) : list nat :=
  stridedIndices size threadId size threadCount.

(** The value of the row at the sort column: that of the first pair whose
    name is the ORDER BY field, the empty string when there is none. *)
Fixpoint sortValue (orderField : string) (row : ResultRow) : string :=
  match row with
  | [] => ""
  | (field, v) :: row' =>
      if Cxx.string_eq field orderField then v else sortValue orderField row'
  end.

(** The comparator passed to [std::sort]: numeric when [std::stod]
    succeeds on both values, and in the [catch (...)] the comparison of
    the two strings. *)
Definition orderByLess (orderField : string) (a b : ResultRow) : bool :=
  let aValue := sortValue orderField a in
  let bValue := sortValue orderField b in
  match Cxx.stod aValue with
  | Cxx.stod_value aNum =>
      match Cxx.stod bValue with
      | Cxx.stod_value bNum => Cxx.double_lt aNum bNum
      | _ => Cxx.string_lt aValue bValue
      end
  | _ => Cxx.string_lt aValue bValue
  end.

(** Helper to format a field path as a string (the [pathToString]
    lambda). *)
Fixpoint pathToStringFrom (i : nat) (comps : list string) (result : string)
  : string :=
  match comps with
  | [] => result
  | c :: comps' =>
      let result := if Nat.ltb 0 i then String.append result "." else result in
      pathToStringFrom (S i) comps' (String.append result c)
  end.

Definition pathToString (field : FieldPath) : string :=
  pathToStringFrom 0 (components field) "".

Section WithWorld.

Variable W : World.

Definition getXmlFiles (path : string) : list string * list string :=
  match status W path with
  | regular_file =>
      (if isXmlFile (loader W) path then [path] else [], [])
  | directory entries failure =>
      (map entry_path
         (filter (fun entry =>
                    (entry_is_regular_file entry
                     && isXmlFile (loader W) (entry_path entry))%bool)
                 entries),
       match failure with
       | Some what => [String.append "Filesystem error: " what]
       | None => []
       end)
  | other_path =>
      ([], [String.append
              "Warning: Path is neither a file nor a directory: " path])
  | filesystem_error what =>
      ([], [String.append "Filesystem error: " what])
  end.

(** The name and value of one select field relative to a context node.
    The source spells this loop body out three times, word for word: in
    [processFileWithForClauses] and in both WHERE branches of
    [processFile]. *)
Definition selectField (doc : xml_tree) (fname : string)
  (node : xml_node) (field : FieldPath) : string * string :=
  if include_filename field then ("FILE_NAME", fname)
  else
    (back (components field),
     match components field with
     | [c] =>
         let foundNode := findFirstElementByName (nav W) doc node c in
         if is_set foundNode then child_value doc foundNode else ""
     | comps =>
         match findNodesByPartialPath (nav W) doc node comps with
         | first :: _ => child_value doc first
         | [] => ""
         end
     end).

Definition selectRow (doc : xml_tree) (fname : string) (q : Query)
  (node : xml_node) : ResultRow :=
  map (selectField doc fname node) (select_fields q).

(** Process a single file with FOR clause context binding. *)
Definition processFileWithForClauses (q : Query) (doc : xml_tree)
  (fname : string) : list ResultRow :=
  match for_clauses q with
  | [] => []
  | forClause :: _ =>
      let iterationNodes :=
        match components (path forClause) with
        | [elementName] => findElements elementName doc []
        | comps => findNodesByPartialPath (nav W) doc doc_node comps
        end in
      flat_map
        (fun contextNode =>
           match where_ q with
           | Some w =>
               if evaluateWhereExpr (nav W) doc contextNode w 0
               then [selectRow doc fname q contextNode]
               else []
           | None => [selectRow doc fname q contextNode]
           end)
        iterationNodes
  end.

(** Plain projection: one value list per field, rows by index. *)
Definition projectAll (q : Query) (doc : xml_tree) (fname : string)
  : list ResultRow :=
  let fieldResults :=
    map (fun field => extractValues (nav W) doc fname field)
        (select_fields q) in
  match fieldResults with
  | [] => []
  | _ =>
      let maxResults :=
        fold_left (fun m fr => Nat.max m (List.length fr)) fieldResults 0 in
      map (fun i =>
             map (fun fieldIdx =>
                    let field := nth fieldIdx (select_fields q) emptyFieldPath in
                    let fr := nth fieldIdx fieldResults [] in
                    (fieldName field,
                     if Nat.ltb i (List.length fr)
                     then value (nth i fr (mkXmlResult "" ""))
                     else ""))
                 (seq 0 (List.length (select_fields q))))
          (seq 0 maxResults)
  end.

Definition isNullCheck (w : WhereExpr) : bool :=
  match w with
  | WhereCondition _ IS_NULL _ _ | WhereCondition _ IS_NOT_NULL _ _ => true
  | _ => false
  end.

(** The [shouldEvaluate] flag of [searchTree]. *)
Definition shouldEvaluate (q : Query) (doc : xml_tree) (w : WhereExpr)
  (whereField : FieldPath) (node : xml_node) : bool :=
  if isNullCheck w then
    if (xml_node_type_eqb (type doc node) node_element
        && negb (node_eqb node doc_node))%bool
    then
      existsb
        (fun selectField =>
           (negb (include_filename selectField)
            && Nat.eqb (List.length (components selectField)) 1
            && let foundNode :=
                 findFirstElementByName (nav W) doc node
                   (front (components selectField)) in
               (is_set foundNode && node_eqb (parent foundNode) node))%bool)
        (select_fields q)
    else false
  else
    let whereAttrNode :=
      findFirstElementByName (nav W) doc node (front (components whereField)) in
    (is_set whereAttrNode && node_eqb (parent whereAttrNode) node)%bool.

(** What the body of [searchTree] appends at one node. *)
Definition visitNode (q : Query) (doc : xml_tree) (fname : string)
  (w : WhereExpr) (whereField : FieldPath) (node : xml_node)
  : list ResultRow :=
  if shouldEvaluate q doc w whereField node then
    if evaluateWhereExpr (nav W) doc node w 0
    then [selectRow doc fname q node]
    else []
  else [].

(** The WHERE branch of [processFile]. *)
Definition filterByWhere (q : Query) (doc : xml_tree) (fname : string)
  (w : WhereExpr) : list ResultRow :=
  let whereField := extractFieldPathFromWhere (Some w) in
  if Nat.ltb (List.length (components whereField)) 2 then
    searchTree (visitNode q doc fname w whereField) doc []
  else
    let parentPath := removelast (components whereField) in
    let candidateNodes :=
      findNodesByPartialPath (nav W) doc doc_node parentPath in
    flat_map
      (fun node =>
         if evaluateWhereExpr (nav W) doc node w (List.length parentPath)
         then [selectRow doc fname q node]
         else [])
      candidateNodes.

(** [processFile]: the rows of one file, or the exception [load]
    threw. *)
Definition processFile (filepath : string) (q : Query)
  : list ResultRow + string :=
  match load (loader W) filepath with
  | inr what => inr what
  | inl doc =>
      let fname := Cxx.filename filepath in
      match for_clauses q with
      | _ :: _ => inl (processFileWithForClauses q doc fname)
      | [] =>
          match where_ q with
          | None => inl (projectAll q doc fname)
          | Some w => inl (filterByWhere q doc fname w)
          end
      end
  end.

Definition errorLine (filepath what : string) : string :=
  String.append "Error processing file "
    (String.append filepath (String.append ": " what)).

Definition noFilesLine (q : Query) : string :=
  String.append "Warning: No XML files found in " (from_path q).

(** One turn of the loop over the files in [execute]. *)
Definition processNext (q : Query) (acc : Run) (filepath : string) : Run :=
  match processFile filepath q with
  | inl fileResults => mkRun (allResults acc ++ fileResults) (cerr acc)
  | inr what => mkRun (allResults acc) (cerr acc ++ [errorLine filepath what])
  end.

(** Apply ORDER BY if specified (first field only). *)
Definition applyOrderBy (q : Query) (results : list ResultRow)
  : list ResultRow :=
  match order_by_fields q with
  | [] => results
  | orderField :: _ => std_sort W (orderByLess orderField) results
  end.

(** Apply LIMIT if specified. *)
Definition applyLimit (q : Query) (results : list ResultRow)
  : list ResultRow :=
  if (Z.leb 0 (limit q)
      && Nat.ltb (Z.to_nat (limit q)) (List.length results))%bool
  then firstn (Z.to_nat (limit q)) results
  else results.

Definition execute (q : Query) : Run :=
  let '(xmlFiles, scanLog) := getXmlFiles (from_path q) in
  match xmlFiles with
  | [] => mkRun [] (scanLog ++ [noFilesLine q])
  | _ =>
      let acc := fold_left (processNext q) xmlFiles (mkRun [] scanLog) in
      mkRun (applyLimit q (applyOrderBy q (allResults acc))) (cerr acc)
  end.

(** The recursive lambda [checkWhereFields]. *)
Fixpoint checkWhereFields (doc : xml_tree) (expr : WhereExpr)
  (ambiguousAttrs : list string) {struct expr} : list string :=
  match expr with
  | WhereCondition field _ _ _ =>
      if Nat.leb 2 (List.length (components field)) then
        let matchCount := countMatchingPaths (nav W) doc (components field) in
        if Z.ltb 1 matchCount then
          let fieldStr := pathToString field in
          if existsb (Cxx.string_eq fieldStr) ambiguousAttrs
          then ambiguousAttrs
          else ambiguousAttrs ++ [fieldStr]
        else ambiguousAttrs
      else ambiguousAttrs
  | WhereLogical _ l r =>
      let afterLeft :=
        match l with
        | Some e => checkWhereFields doc e ambiguousAttrs
        | None => ambiguousAttrs
        end in
      match r with
      | Some e => checkWhereFields doc e afterLeft
      | None => afterLeft
      end
  end.

(** The loop over the SELECT fields of [checkForAmbiguousAttributes]. *)
Definition checkSelectFields (doc : xml_tree) (fields : list FieldPath)
  : list string :=
  flat_map
    (fun field =>
       if include_filename field then []
       else if Nat.ltb (List.length (components field)) 2 then []
       else if Z.ltb 1 (countMatchingPaths (nav W) doc (components field))
            then [pathToString field]
            else [])
    fields.

(** [checkForAmbiguousAttributes]: the ambiguous paths, or the exception
    thrown while loading the first file.  [load] yields a document or
    throws, so the test [if (!doc)] has no case here. *)
Definition checkForAmbiguousAttributes (q : Query) : list string + string :=
  match fst (getXmlFiles (from_path q)) with
  | [] => inl []
  | first :: _ =>
      match load (loader W) first with
      | inr what => inr what
      | inl doc =>
          let ambiguousAttrs := checkSelectFields doc (select_fields q) in
          match where_ q with
          | Some w => inl (checkWhereFields doc w ambiguousAttrs)
          | None => inl ambiguousAttrs
          end
      end
  end.

(** *** The thread pool *)

(** The state in which [executeMultithreaded] has launched its workers. *)
Definition launch (size threadCount : nat) : Pool :=
  mkPool (map (workerFiles size threadCount) (seq 0 threadCount))
         [] [] 0 [].

Fixpoint setWorker (ps : list (list nat)) (threadId : nat)
  (rest : list nat) : list (list nat) :=
  match ps, threadId with
  | [], _ => []
  | _ :: ps', O => rest :: ps'
  | p :: ps', S k => p :: setWorker ps' k rest
  end.

(** One atomic step of the pool.  A worker takes the next index of its
    stride, processes the file and, holding [resultsMutex], appends its
    rows (or reports the exception), then increments the counter; a
    worker with nothing left does nothing.  A poll of the progress
    thread calls the callback, when there is one, with the counter. *)
Definition poolStep (xmlFiles : list string) (q : Query)
  (threadCount : nat) (progressCallback : bool) (st : Pool)
  (ev : sched_event) : Pool :=
  match ev with
  | run_worker threadId =>
      match nth_error (pending st) threadId with
      | Some (fileIdx :: rest) =>
          let filepath := nth fileIdx xmlFiles "" in
          let pending' := setWorker (pending st) threadId rest in
          match processFile filepath q with
          | inl fileResults =>
              mkPool pending' (merged st ++ fileResults) (pool_cerr st)
                     (S (completed st)) (polled st)
          | inr what =>
              mkPool pending' (merged st)
                     (pool_cerr st ++ [errorLine filepath what])
                     (S (completed st)) (polled st)
          end
      | _ => st
      end
  | poll_progress =>
      if progressCallback then
        mkPool (pending st) (merged st) (pool_cerr st) (completed st)
               (polled st ++ [(completed st, List.length xmlFiles, threadCount)])
      else st
  end.

(** Joining the threads lets every worker finish its stride. *)
Definition joinAll (size threadCount : nat) : list sched_event :=
  flat_map (fun threadId => repeat (run_worker threadId) size)
           (seq 0 threadCount).

(** [executeMultithreaded] under the interleaving [sched]: the events
    of [sched] in order, then whatever the workers still have to do. *)
Definition executeMultithreaded (xmlFiles : list string) (q : Query)
  (threadCount : nat) (progressCallback : bool)
  (sched : list sched_event) : Pool :=
  fold_left (poolStep xmlFiles q threadCount progressCallback)
            (sched ++ joinAll (List.length xmlFiles) threadCount)
            (launch (List.length xmlFiles) threadCount).

(** One turn of the single-threaded loop of [executeWithProgress]. *)
Definition processIndexed (xmlFiles : list string) (q : Query)
  (progressCallback : bool) (st : Pool) (i : nat) : Pool :=
  let filepath := nth i xmlFiles "" in
  match processFile filepath q with
  | inl fileResults =>
      mkPool (pending st) (merged st ++ fileResults) (pool_cerr st)
             (completed st)
             (if progressCallback
              then polled st ++ [(i + 1, List.length xmlFiles, 1)]
              else polled st)
  | inr what =>
      mkPool (pending st) (merged st)
             (pool_cerr st ++ [errorLine filepath what])
             (completed st) (polled st)
  end.

(** [executeWithProgress] with or without a callback, with or without a
    statistics block ([stats] holds what the block contained before the
    call), under the interleaving [sched] of the pool. *)
Definition executeWithProgress (q : Query) (progressCallback : bool)
  (stats : option ExecutionStats) (sched : list sched_event)
  : ProgressRun :=
  let '(xmlFiles, scanLog) := getXmlFiles (from_path q) in
  match xmlFiles with
  | [] => mkProgressRun [] (scanLog ++ [noFilesLine q]) [] stats
  | _ =>
      let fileCount := List.length xmlFiles in
      let useThreading := shouldUseThreading fileCount in
      let threadCount :=
        if useThreading
        then getOptimalThreadCount (hardware_concurrency W) else 1 in
      let stats' :=
        match stats with
        | Some _ => Some (mkStats fileCount threadCount useThreading)
        | None => None
        end in
      let st :=
        if useThreading then
          let st := executeMultithreaded xmlFiles q threadCount
                      progressCallback sched in
          mkPool (pending st) (merged st) (pool_cerr st) (completed st)
                 (if progressCallback
                  then polled st ++ [(fileCount, fileCount, threadCount)]
                  else polled st)
        else
          fold_left (processIndexed xmlFiles q progressCallback)
                    (seq 0 (List.length xmlFiles))
                    (mkPool [] [] [] 0 [])
      in
      mkProgressRun (applyLimit q (applyOrderBy q (merged st)))
                    (scanLog ++ pool_cerr st) (polled st) stats'
  end.

End WithWorld.

End QueryExecutor.

(* ================================================================== *)
(** * Concrete worlds for running the executor *)
(* ================================================================== *)

Module Sample.
Import QueryExecutor.

(** A sort that may stand for [std::sort]: insertion from the right. *)
Fixpoint insertSorted (comp : ResultRow -> ResultRow -> bool)
  (x : ResultRow) (l : list ResultRow) : list ResultRow :=
  match l with
  | [] => [x]
  | y :: l' => if comp y x then y :: insertSorted comp x l' else x :: l
  end.

Definition insertionSort (comp : ResultRow -> ResultRow -> bool)
  (l : list ResultRow) : list ResultRow :=
  fold_right (insertSorted comp) [] l.

Fixpoint lookupFile (files : list (string * (xml_tree + string)))
  (p : string) : xml_tree + string :=
  match files with
  | [] => inr "cannot open file"
  | (name, content) :: files' =>
      if String.eqb name p then content else lookupFile files' p
  end.

(** A directory [dir] holding the given files (a document, or the
    message of the exception loading it throws), all of them XML files,
    queried with the navigator of the specification. *)
Definition world (dir : string) (files : list (string * (xml_tree + string)))
  (hardware : nat) : World :=
  mkWorld SpecNavigator.ops
          (mkXmlLoader (lookupFile files) (fun _ => true))
          (fun p =>
             if String.eqb p dir
             then directory (map (fun f => mkEntry (fst f) true) files) None
             else other_path)
          insertionSort
          (fun _ => eq_refl)
          hardware.

Definition field (comps : list string) : FieldPath := mkFieldPath comps false.

(** [<a><b><x>1</x></b><x>1</x></a>] *)
Definition nestedDoc : xml_tree :=
  document
    [element "a"
       [element "b" [element "x" [text "1"]];
        element "x" [text "1"]]].

(** [SELECT x FROM data WHERE x = 1] *)
Definition nestedQuery : Query :=
  mkQuery [field ["x"]] "data"
          (Some (WhereCondition (field ["x"]) EQ (Some "1") true))
          [] [] (-1).

(** [<r><a><b>1</b></a><a><b>2</b></a></r>] *)
Definition twiceDoc : xml_tree :=
  document
    [element "r"
       [element "a" [element "b" [text "1"]];
        element "a" [element "b" [text "2"]]]].

(** [SELECT a.b, a.b FROM data] *)
Definition twiceQuery : Query :=
  mkQuery [field ["a"; "b"]; field ["a"; "b"]] "data" None [] [] (-1).

(** [SELECT a.b FROM data WHERE a.b = 1 AND a.b = 1] *)
Definition onceQuery : Query :=
  mkQuery [field ["a"; "b"]] "data"
          (Some (WhereLogical AND
                   (Some (WhereCondition (field ["a"; "b"]) EQ (Some "1") true))
                   (Some (WhereCondition (field ["a"; "b"]) EQ (Some "1") true))))
          [] [] (-1).

(** [<menu><food><name>Waffles</name><price>5</price></food>
          <food><name>Toast</name></food></menu>] *)
Definition menuDoc : xml_tree :=
  document
    [element "menu"
       [element "food"
          [element "name" [text "Waffles"]; element "price" [text "5"]];
        element "food" [element "name" [text "Toast"]]]].

(** [SELECT FILE_NAME, name, price FROM data] *)
Definition menuQuery : Query :=
  mkQuery [mkFieldPath ["FILE_NAME"] true; field ["name"]; field ["price"]]
          "data" None [] [] (-1).

(** [<menu><food><name>Toast</name></food></menu>] *)
Definition toastDoc : xml_tree :=
  document [element "menu" [element "food" [element "name" [text "Toast"]]]].

Definition priceIsNull : WhereExpr :=
  WhereCondition (field ["price"]) IS_NULL None false.

(** [SELECT food.name FROM data WHERE price IS NULL] *)
Definition toastQuery : Query :=
  mkQuery [field ["food"; "name"]] "data" (Some priceIsNull) [] [] (-1).

Definition keyed (v : string) : ResultRow := [("k", v)].

(** Five files, the second of which does not parse. *)
Definition batch : list (string * (xml_tree + string)) :=
  [("data/1.xml", inl menuDoc);
   ("data/2.xml", inr "parse error");
   ("data/3.xml", inl nestedDoc);
   ("data/4.xml", inl twiceDoc);
   ("data/5.xml", inl menuDoc)].

(** The four files of [batch] that parse. *)
Definition validBatch : list (string * (xml_tree + string)) :=
  [("data/1.xml", inl menuDoc);
   ("data/3.xml", inl nestedDoc);
   ("data/4.xml", inl twiceDoc);
   ("data/5.xml", inl menuDoc)].

(** [SELECT name FROM data ORDER BY name LIMIT 2] *)
Definition sortedQuery : Query :=
  mkQuery [field ["name"]] "data" None [] ["name"] 2.

End Sample.

(* ================================================================== *)
(** * Notions the properties are stated with *)
(* ================================================================== *)

Module Stated.

(** The node has a child element with the given tag. *)
Definition directlyParents (doc : xml_tree) (node : xml_node)
  (nm : string) : bool :=
  existsb (fun c =>
             (xml_node_type_eqb (type doc c) node_element
              && String.eqb (name doc c) nm)%bool)
          (children doc node).

(** The node has a child at which the field's path ends. *)
Definition parentsField (doc : xml_tree) (node : xml_node)
  (field : FieldPath) : bool :=
  match components field with
  | [] => false
  | comps =>
      existsb (SpecNavigator.matches_upwards doc (rev comps))
              (children doc node)
  end.

(** Every element with the given tag below the node is a child of the
    node. *)
Definition onlyChildrenNamed (doc : xml_tree) (node : xml_node)
  (nm : string) : Prop :=
  forall p,
    In p (SpecNavigator.descendants doc node) ->
    SpecNavigator.is_element_named doc nm p = true ->
    parent (Some p) = node.

(** The evaluation contexts of the shorthand walk in the words of the
    specification: for an [IS_NULL]/[IS_NOT_NULL] condition every element
    that directly parents at least one select field, otherwise every
    element that directly parents the anchor field. *)
Definition eligibleAsSpecified (q : Query) (doc : xml_tree) (w : WhereExpr)
  (node : xml_node) : bool :=
  (xml_node_type_eqb (type doc node) node_element
   && if QueryExecutor.isNullCheck w
      then existsb (fun field =>
                      (negb (include_filename field)
                       && parentsField doc node field)%bool)
                   (select_fields q)
      else parentsField doc node
             (QueryExecutor.extractFieldPathFromWhere (Some w)))%bool.

(** The rows of the shorthand walk in the words of the specification: one
    row per eligible node that passes, in document order. *)
Definition shorthandRowsAsSpecified (W : World) (q : Query) (doc : xml_tree)
  (fname : string) (w : WhereExpr) : list ResultRow :=
  map (QueryExecutor.selectRow W doc fname q)
      (filter (fun node => XmlNavigator.evaluateWhereExpr (nav W) doc node w 0)
              (filter (eligibleAsSpecified q doc w)
                      (map (@Some (list nat)) (preorder doc [])))).

(** What [std::sort] requires of its comparator on the elements it is
    given: irreflexivity, transitivity, and transitivity of
    incomparability. *)
Definition incomparable {A : Type} (lt : A -> A -> bool) (a b : A) : Prop :=
  lt a b = false /\ lt b a = false.

Definition strict_weak_ordering_on {A : Type} (l : list A)
  (lt : A -> A -> bool) : Prop :=
  (forall a, In a l -> lt a a = false)
  /\ (forall a b c, In a l -> In b l -> In c l ->
        lt a b = true -> lt b c = true -> lt a c = true)
  /\ (forall a b c, In a l -> In b l -> In c l ->
        incomparable lt a b -> incomparable lt b c -> incomparable lt a c).

(** The files whose processing does not end in an exception. *)
Definition succeeds (W : World) (q : Query) (filepath : string) : bool :=
  match QueryExecutor.processFile W filepath q with
  | inl _ => true
  | inr _ => false
  end.

(** The rows of the files in enumeration order, one file after the
    other. *)
Definition sequentialRows (W : World) (q : Query) (xmlFiles : list string)
  : list ResultRow :=
  flat_map (fun filepath =>
              match QueryExecutor.processFile W filepath q with
              | inl fileResults => fileResults
              | inr _ => []
              end)
           xmlFiles.

(** The error lines of the files that fail, in enumeration order. *)
Definition failureLines (W : World) (q : Query) (xmlFiles : list string)
  : list string :=
  flat_map (fun filepath =>
              match QueryExecutor.processFile W filepath q with
              | inl _ => []
              | inr what => [QueryExecutor.errorLine filepath what]
              end)
           xmlFiles.

(** The same machine with the failing files removed from what the
    filesystem shows. *)
Definition withoutFailing (W : World) (q : Query) : World :=
  mkWorld (nav W) (loader W)
          (fun p =>
             match status W p with
             | regular_file =>
                 if (isXmlFile (loader W) p && negb (succeeds W q p))%bool
                 then other_path else regular_file
             | directory entries failure =>
                 directory
                   (filter (fun entry => succeeds W q (entry_path entry))
                           entries)
                   failure
             | other => other
             end)
          (std_sort W) (std_sort_nil W) (hardware_concurrency W).

(** What the file at index [i] contributes: its rows, its error line. *)
Definition rowsAt (W : World) (q : Query) (xmlFiles : list string)
  (i : nat) : list ResultRow :=
  match QueryExecutor.processFile W (nth i xmlFiles "") q with
  | inl fileResults => fileResults
  | inr _ => []
  end.

Definition errorsAt (W : World) (q : Query) (xmlFiles : list string)
  (i : nat) : list string :=
  match QueryExecutor.processFile W (nth i xmlFiles "") q with
  | inl _ => []
  | inr what => [QueryExecutor.errorLine (nth i xmlFiles "") what]
  end.

(** No worker of the pool has more than [n] files ahead of it. *)
Definition bounded (n : nat) (st : QueryExecutor.Pool) : Prop :=
  forall j, List.length (nth j (QueryExecutor.pending st) []) <= n.

(** The rows [executeWithProgress] has merged before ORDER BY and LIMIT:
    those of the pool when it threads, those of the files in enumeration
    order when it does not. *)
Definition mergedRows (W : World) (q : Query) (progressCallback : bool)
  (sched : list QueryExecutor.sched_event) (xmlFiles : list string)
  : list ResultRow :=
  if QueryExecutor.shouldUseThreading (List.length xmlFiles)
  then QueryExecutor.merged
         (QueryExecutor.executeMultithreaded W xmlFiles q
            (QueryExecutor.getOptimalThreadCount (hardware_concurrency W))
            progressCallback sched)
  else sequentialRows W q xmlFiles.

End Stated.

(* ================================================================== *)
(** * Notions the further properties are stated with *)
(* ================================================================== *)

Module Observed.

(** The completed count, the total and the worker count of a progress
    call. *)
Definition reported (c : nat * nat * nat) : nat := fst (fst c).
Definition total (c : nat * nat * nat) : nat := snd (fst c).
Definition workers (c : nat * nat * nat) : nat := snd c.

(** What the progress thread has reported so far names the right totals,
    never exceeds the counter of completed files and never decreases. *)
Definition reportsInOrder (n threadCount : nat) (st : QueryExecutor.Pool)
  : Prop :=
  Forall (fun c => reported c <= QueryExecutor.completed st
                   /\ total c = n /\ workers c = threadCount)
         (QueryExecutor.polled st)
  /\ StronglySorted le (map reported (QueryExecutor.polled st)).

(** The elements of the document that bear the tag, in document order. *)
Definition elementsNamed (doc : xml_tree) (nm : string) : list xml_node :=
  map (@Some (list nat))
      (filter (fun pos =>
                 (xml_node_type_eqb (type doc (Some pos)) node_element
                  && String.eqb (name doc (Some pos)) nm)%bool)
              (preorder doc [])).

(** Two queries that differ at most in the FOR clauses after the first and
    in the ORDER BY fields after the first. *)
Definition sameUpToTails (q q' : Query) : Prop :=
  select_fields q = select_fields q'
  /\ from_path q = from_path q'
  /\ where_ q = where_ q'
  /\ limit q = limit q'
  /\ hd_error (for_clauses q) = hd_error (for_clauses q')
  /\ hd_error (order_by_fields q) = hd_error (order_by_fields q').

(** The nodes at which a query with a FOR clause or a WHERE clause may
    emit a row: the matches of the first FOR clause; without FOR clause,
    every node of the document when the first condition of the WHERE
    expression names a path of fewer than two components, and otherwise
    what the navigator finds for that path without its last component. *)
Definition contextNodes (W : World) (doc : xml_tree) (q : Query)
  : list xml_node :=
  match for_clauses q with
  | forClause :: _ =>
      match components (path forClause) with
      | [elementName] => elementsNamed doc elementName
      | comps =>
          XmlNavigator.findNodesByPartialPath (nav W) doc doc_node comps
      end
  | [] =>
      match where_ q with
      | Some w =>
          let anchor :=
            components (QueryExecutor.extractFieldPathFromWhere (Some w)) in
          if Nat.ltb (List.length anchor) 2
          then map (@Some (list nat)) (preorder doc [])
          else XmlNavigator.findNodesByPartialPath (nav W) doc doc_node
                 (removelast anchor)
      | None => []
      end
  end.

(** The depth at which the WHERE expression is evaluated at such a
    node. *)
Definition whereDepth (q : Query) : nat :=
  match for_clauses q, where_ q with
  | [], Some w =>
      let anchor :=
        components (QueryExecutor.extractFieldPathFromWhere (Some w)) in
      if Nat.ltb (List.length anchor) 2 then 0
      else List.length (removelast anchor)
  | _, _ => 0
  end.

(** The WHERE expression, if any, holds at the node. *)
Definition passesWhere (W : World) (doc : xml_tree) (q : Query)
  (node : xml_node) : bool :=
  match where_ q with
  | Some w =>
      XmlNavigator.evaluateWhereExpr (nav W) doc node w (whereDepth q)
  | None => true
  end.

(** The fields of the conditions of a WHERE expression, left to right. *)
Fixpoint whereFields (w : WhereExpr) : list FieldPath :=
  match w with
  | WhereCondition field _ _ _ => [field]
  | WhereLogical _ l r =>
      match l with Some e => whereFields e | None => [] end
      ++ match r with Some e => whereFields e | None => [] end
  end.

(** A field path of two or more components that matches more than one
    place of the document. *)
Definition ambiguousIn (W : World) (doc : xml_tree) (field : FieldPath)
  : Prop :=
  2 <= List.length (components field)
  /\ (1 < XmlNavigator.countMatchingPaths (nav W) doc (components field))%Z.

End Observed.

(* ================================================================== *)
(** * Properties *)
(* ================================================================== *)

Import QueryExecutor XmlNavigator.

Unset Implicit Arguments.

(** ** Lists and loops *)

Section ListFacts.

Variables A B : Type.

Lemma map_nth_seq (f : A -> B) (d : A) (l : list A) :
  map (fun i => f (nth i l d)) (seq 0 (List.length l)) = map f l.
Proof.
  induction l as [|x l IH]; simpl; [reflexivity|].
  f_equal. rewrite <- seq_shift, map_map. exact IH.
Qed.

Lemma fold_left_max_length (ls : list (list A)) (m : nat) :
  fold_left (fun m fr => Nat.max m (List.length fr)) ls m
  = Nat.max m (list_max (map (@List.length A) ls)).
Proof.
  revert m; induction ls as [|l ls IH]; intros m; simpl.
  - now rewrite Nat.max_0_r.
  - rewrite IH. now rewrite Nat.max_assoc.
Qed.

Lemma Forall_flat_map (P : B -> Prop) (f : A -> list B) (l : list A) :
  (forall x, Forall P (f x)) -> Forall P (flat_map f l).
Proof.
  intros Hf; induction l as [|x l IH]; simpl; [constructor|].
  apply Forall_app; split; [apply Hf | exact IH].
Qed.

End ListFacts.

(** ** The tree walks visit the nodes in document order *)

Lemma searchTree_preorder (visit : xml_node -> list ResultRow) :
  forall (t : xml_tree) (pos : list nat),
    searchTree visit t pos
    = flat_map (fun p => visit (Some p)) (preorder t pos).
Proof.
  fix IH 1. intros [ty nm v kids] pos. simpl. f_equal.
  generalize 0.
  induction kids as [|k ks IHks]; intros i; simpl; [reflexivity|].
  rewrite flat_map_app, IH, IHks. reflexivity.
Qed.

(** ** Column names *)

Section Columns.

Variable W : World.

Lemma selectField_name doc fname node field :
  fst (selectField W doc fname node field) = fieldName field.
Proof.
  unfold selectField, fieldName. now destruct (include_filename field).
Qed.

Lemma selectRow_names doc fname q node :
  map fst (selectRow W doc fname q node) = map fieldName (select_fields q).
Proof.
  unfold selectRow. rewrite map_map. apply map_ext.
  intros f. apply selectField_name.
Qed.

Lemma projectAll_row q doc fname i :
  map (fun fieldIdx =>
         let field := nth fieldIdx (select_fields q) emptyFieldPath in
         let fr := nth fieldIdx
                     (map (fun field => extractValues (nav W) doc fname field)
                          (select_fields q)) [] in
         (fieldName field,
          if Nat.ltb i (List.length fr)
          then value (nth i fr (mkXmlResult "" ""))
          else ""))
      (seq 0 (List.length (select_fields q)))
  = map (fun field =>
           (fieldName field,
            nth i (map value (extractValues (nav W) doc fname field)) ""))
        (select_fields q).
Proof.
  rewrite <- (map_nth_seq _ _
                (fun field =>
                   (fieldName field,
                    nth i (map value (extractValues (nav W) doc fname field)) ""))
                emptyFieldPath (select_fields q)).
  apply map_ext_in. intros idx Hin. apply in_seq in Hin. simpl.
  f_equal.
  assert (Hnth : forall d,
    nth idx (map (fun field => extractValues (nav W) doc fname field)
                 (select_fields q)) d
    = extractValues (nav W) doc fname (nth idx (select_fields q) emptyFieldPath)).
  { intros d. rewrite (nth_indep _ d
      ((fun field => extractValues (nav W) doc fname field) emptyFieldPath)).
    - apply map_nth.
    - rewrite length_map. lia. }
  rewrite !Hnth.
  set (fr := extractValues (nav W) doc fname _).
  destruct (Nat.ltb_spec i (List.length fr)) as [Hlt|Hge].
  - rewrite (nth_indep _ "" (value (mkXmlResult "" ""))).
    + symmetry. apply map_nth.
    + now rewrite length_map.
  - symmetry. apply nth_overflow. now rewrite length_map.
Qed.

(** Plain projection, row by row: row [i] pairs every select field with
    the [i]-th value of its own list. *)
Lemma projectAll_rows q doc fname :
  projectAll W q doc fname
  = map (fun i =>
           map (fun field =>
                  (fieldName field,
                   nth i (map value (extractValues (nav W) doc fname field)) ""))
               (select_fields q))
        (seq 0 (list_max
                  (map (fun field =>
                          List.length (extractValues (nav W) doc fname field))
                       (select_fields q)))).
Proof.
  unfold projectAll.
  rewrite fold_left_max_length, Nat.max_0_l, map_map.
  pose proof (projectAll_row q doc fname) as Hrow.
  destruct (select_fields q) as [|f fs] eqn:E; [reflexivity|].
  cbv zeta in Hrow. simpl map at 1.
  apply map_ext. intros i. apply Hrow.
Qed.

Lemma filterByWhere_names q doc fname w :
  Forall (fun row => map fst row = map fieldName (select_fields q))
         (filterByWhere W q doc fname w).
Proof.
  unfold filterByWhere.
  destruct (Nat.ltb _ 2).
  - rewrite searchTree_preorder. apply Forall_flat_map. intros p.
    unfold visitNode.
    destruct (shouldEvaluate _ _ _ _ _ _); [|constructor].
    destruct (evaluateWhereExpr _ _ _ _ _); constructor;
      [apply selectRow_names | constructor].
  - apply Forall_flat_map. intros node.
    destruct (evaluateWhereExpr _ _ _ _ _); constructor;
      [apply selectRow_names | constructor].
Qed.

Lemma processFileWithForClauses_names q doc fname :
  Forall (fun row => map fst row = map fieldName (select_fields q))
         (processFileWithForClauses W q doc fname).
Proof.
  unfold processFileWithForClauses.
  destruct (for_clauses q) as [|forClause rest]; [constructor|].
  apply Forall_flat_map. intros contextNode.
  destruct (where_ q) as [w|].
  - destruct (evaluateWhereExpr _ _ _ _ _); constructor;
      [apply selectRow_names | constructor].
  - constructor; [apply selectRow_names | constructor].
Qed.

Lemma projectAll_names q doc fname :
  Forall (fun row => map fst row = map fieldName (select_fields q))
         (projectAll W q doc fname).
Proof.
  rewrite projectAll_rows. apply Forall_forall. intros row Hin.
  apply in_map_iff in Hin. destruct Hin as [i [<- _]].
  rewrite map_map. reflexivity.
Qed.

End Columns.

(** C1: whatever strategy [processFile] takes (plain projection, WHERE
    filter, FOR clause), every row it emits has as many pairs as the query
    has select fields, and its column names are the select-field names in
    [select_fields] order: [FILE_NAME] for the source-identifier field, the
    last path component otherwise. *)
Theorem C1_column_names (W : World) (filepath : string) (q : Query)
  (emitted : list ResultRow) (row : ResultRow) :
  processFile W filepath q = inl emitted ->
  In row emitted ->
  List.length row = List.length (select_fields q)
  /\ map fst row = map fieldName (select_fields q).
Proof.
  intros Hrun Hin.
  assert (Hnames : map fst row = map fieldName (select_fields q)).
  { unfold processFile in Hrun.
    destruct (load (loader W) filepath) as [doc|what]; [|discriminate].
    revert row Hin. apply Forall_forall.
    destruct (for_clauses q) as [|c cs] eqn:Hfor.
    - destruct (where_ q) as [w|]; injection Hrun as <-.
      + apply filterByWhere_names.
      + apply projectAll_names.
    - injection Hrun as <-. apply processFileWithForClauses_names. }
  split; [|exact Hnames].
  rewrite <- (length_map fst row), Hnames. apply length_map.
Qed.

Lemma C1_column_names_witness :
  let W := Sample.world "data" [("data/menu.xml", inl Sample.menuDoc)] 4 in
  let row := [("FILE_NAME", "menu.xml"); ("name", "Waffles"); ("price", "5")] in
  List.length row = 3
  /\ map fst row = ["FILE_NAME"; "name"; "price"].
Proof.
  intros W row.
  refine (C1_column_names W "data/menu.xml" Sample.menuQuery
            [row; [("FILE_NAME", ""); ("name", "Toast"); ("price", "")]]
            row _ _).
  - vm_compute. reflexivity.
  - simpl. left. reflexivity.
Defined.

(** C2: without WHERE and without FOR clause, [processFile] emits exactly
    [M] rows, [M] being the greatest length among the per-field lists of
    extracted values, and row [i] holds for every select field the [i]-th
    value of that field's list when the list is long enough and the empty
    string otherwise. *)
Theorem C2_cross_indexing (W : World) (filepath : string) (q : Query)
  (doc : xml_tree) :
  load (loader W) filepath = inl doc ->
  for_clauses q = [] ->
  where_ q = None ->
  let valuesOf field :=
    map value (extractValues (nav W) doc (Cxx.filename filepath) field) in
  let M :=
    list_max (map (fun field => List.length (valuesOf field)) (select_fields q)) in
  exists emitted,
    processFile W filepath q = inl emitted
    /\ List.length emitted = M
    /\ forall i, i < M ->
         nth i emitted []
         = map (fun field =>
                  (fieldName field,
                   if Nat.ltb i (List.length (valuesOf field))
                   then nth i (valuesOf field) ""
                   else ""))
               (select_fields q).
Proof.
  intros Hload Hfor Hwhere valuesOf M.
  assert (HM : M = list_max
                     (map (fun field =>
                             List.length
                               (extractValues (nav W) doc (Cxx.filename filepath) field))
                          (select_fields q))).
  { unfold M, valuesOf. f_equal. apply map_ext. intros f. apply length_map. }
  exists (projectAll W q doc (Cxx.filename filepath)).
  split; [|split].
  - unfold processFile. now rewrite Hload, Hfor, Hwhere.
  - rewrite projectAll_rows, length_map, length_seq. now rewrite HM.
  - intros i Hi. rewrite projectAll_rows, <- HM.
    set (rowAt := fun i : nat => map _ (select_fields q)).
    rewrite (nth_indep _ [] (rowAt 0)) by now rewrite length_map, length_seq.
    rewrite (map_nth rowAt), seq_nth by exact Hi. simpl. unfold rowAt.
    apply map_ext. intros field. f_equal. fold (valuesOf field).
    destruct (Nat.ltb_spec i (List.length (valuesOf field))) as [Hlt|Hge];
      [reflexivity | now apply nth_overflow].
Qed.

Lemma C2_cross_indexing_witness :
  exists emitted,
    processFile (Sample.world "data" [("data/menu.xml", inl Sample.menuDoc)] 4)
                "data/menu.xml" Sample.menuQuery = inl emitted
    /\ List.length emitted = 2
    /\ forall i, i < 2 ->
         nth i emitted []
         = [("FILE_NAME", if Nat.ltb i 1 then nth i ["menu.xml"] "" else "");
            ("name", if Nat.ltb i 2 then nth i ["Waffles"; "Toast"] "" else "");
            ("price", if Nat.ltb i 1 then nth i ["5"] "" else "")].
Proof.
  exact (C2_cross_indexing
           (Sample.world "data" [("data/menu.xml", inl Sample.menuDoc)] 4)
           "data/menu.xml" Sample.menuQuery Sample.menuDoc
           eq_refl eq_refl eq_refl).
Defined.

(** ** The shorthand WHERE walk *)

Section Positions.

Lemma subtree_app (t : xml_tree) (p r : list nat) :
  subtree t (p ++ r)
  = match subtree t p with
    | Some t' => subtree t' r
    | None => None
    end.
Proof.
  revert t; induction p as [|i p IH]; intros t; simpl; [reflexivity|].
  destruct (nth_error (tree_kids t) i); [apply IH | reflexivity].
Qed.

(** What [preorder] lists below a node are positions of the document that
    extend the node's position by at least one step. *)
Lemma preorder_shape :
  forall (t : xml_tree) (pos p : list nat),
    In p (preorder t pos) ->
    p = pos \/ exists j r, p = pos ++ j :: r /\ subtree t (j :: r) <> None.
Proof.
  fix IH 1. intros [ty nm v kids] pos p. simpl.
  intros [<-|Hin]; [now left|]. right.
  assert (Hkids : forall i,
    In p ((fix over_kids (ks : list xml_tree) (i : nat) {struct ks}
             : list (list nat) :=
             match ks with
             | [] => []
             | k :: ks' => preorder k (pos ++ [i]) ++ over_kids ks' (S i)
             end) kids i) ->
    exists j r c, nth_error kids j = Some c
                  /\ p = pos ++ (i + j) :: r /\ subtree c r <> None).
  { clear Hin. induction kids as [|k ks IHks]; intros i Hp; [destruct Hp|].
    apply in_app_or in Hp. destruct Hp as [Hk|Hrest].
    - destruct (IH k (pos ++ [i]) p Hk) as [->|[j [r [-> Hsub]]]].
      + exists 0, [], k. rewrite Nat.add_0_r.
        split; [reflexivity|split; [reflexivity|discriminate]].
      + exists 0, (j :: r), k. rewrite Nat.add_0_r.
        split; [reflexivity|split; [now rewrite <- app_assoc|exact Hsub]].
    - destruct (IHks (S i) Hrest) as [j [r [c [Hnth [-> Hsub]]]]].
      exists (S j), r, c.
      split; [exact Hnth|split; [now rewrite Nat.add_succ_r|exact Hsub]]. }
  destruct (Hkids 0 Hin) as [j [r [c [Hnth [-> Hsub]]]]].
  exists j, r. split; [reflexivity|]. simpl. now rewrite Hnth.
Qed.

Lemma child_listed :
  forall (t : xml_tree) (pos : list nat) (i : nat),
    i < List.length (tree_kids t) ->
    In (pos ++ [i]) (tl (preorder t pos)).
Proof.
  intros [ty nm v kids] pos i. simpl.
  assert (Hkids : forall ks s j,
    j < List.length ks ->
    In (pos ++ [s + j])
       ((fix over_kids (ks : list xml_tree) (i : nat) {struct ks}
           : list (list nat) :=
           match ks with
           | [] => []
           | k :: ks' => preorder k (pos ++ [i]) ++ over_kids ks' (S i)
           end) ks s)).
  { induction ks as [|k ks IHks]; intros s j Hj; simpl in Hj; [lia|].
    apply in_or_app. destruct j as [|j].
    - left. rewrite Nat.add_0_r. destruct k. simpl. now left.
    - right. rewrite Nat.add_succ_r. apply (IHks (S s) j). lia. }
  intros Hi. apply (Hkids kids 0 i Hi).
Qed.

Lemma tl_preorder (t : xml_tree) (pos p : list nat) :
  In p (tl (preorder t pos)) ->
  exists j r, p = pos ++ j :: r /\ subtree t (j :: r) <> None.
Proof.
  intros Hin.
  assert (Hall : In p (preorder t pos)).
  { destruct t. simpl in *. now right. }
  destruct (preorder_shape t pos p Hall) as [->|H]; [|exact H].
  exfalso. destruct t as [ty nm v kids]. simpl in Hin.
  assert (Hkids : forall ks i,
    ~ In pos ((fix over_kids (ks : list xml_tree) (i : nat) {struct ks}
                 : list (list nat) :=
                 match ks with
                 | [] => []
                 | k :: ks' => preorder k (pos ++ [i]) ++ over_kids ks' (S i)
                 end) ks i)).
  { induction ks as [|k ks IHks]; intros i Hp; [destruct Hp|].
    apply in_app_or in Hp. destruct Hp as [Hk|Hrest]; [|exact (IHks _ Hrest)].
    destruct (preorder_shape k (pos ++ [i]) pos Hk) as [E|[j [r [E _]]]];
      apply (f_equal (@List.length nat)) in E;
      rewrite ?length_app in E; simpl in E; lia. }
  exact (Hkids kids 0 Hin).
Qed.

End Positions.

Section Shorthand.

Variable W : World.
Hypothesis Hnav :
  findFirstElementByName (nav W) = SpecNavigator.findFirstElementByName.

Lemma pos_eqb_eq (p r : list nat) : pos_eqb p r = true <-> p = r.
Proof.
  unfold pos_eqb. destruct (list_eq_dec Nat.eq_dec p r); split;
    congruence.
Qed.

Lemma node_eqb_eq (a b : xml_node) : node_eqb a b = true <-> a = b.
Proof.
  destruct a as [p|], b as [r|]; simpl; try (split; congruence).
  rewrite pos_eqb_eq. split; congruence.
Qed.

Lemma xml_node_type_eqb_eq (a b : xml_node_type) :
  xml_node_type_eqb a b = true <-> a = b.
Proof. destruct a, b; simpl; split; congruence. Qed.

Lemma removelast_step (pos : list nat) (j : nat) (r : list nat) :
  removelast (pos ++ j :: r) = pos -> r = [].
Proof.
  rewrite removelast_app by discriminate.
  rewrite <- (app_nil_r pos) at 2. intros H. apply app_inv_head in H.
  destruct r; [reflexivity | discriminate].
Qed.

Lemma children_of (doc : xml_tree) (pos : list nat) (t : xml_tree) (i : nat) :
  subtree doc pos = Some t ->
  i < List.length (tree_kids t) ->
  In (Some (pos ++ [i])) (children doc (Some pos)).
Proof.
  intros Hsub Hi. unfold children. simpl. rewrite Hsub.
  apply in_map_iff. exists i. split; [reflexivity|].
  apply in_seq. lia.
Qed.

(** The first element found below a node, when it is a child of the node,
    shows that the node directly parents the tag. *)
Lemma found_child (doc : xml_tree) (node : xml_node) (nm : string) :
  let found := findFirstElementByName (nav W) doc node nm in
  is_set found = true ->
  node_eqb (parent found) node = true ->
  Stated.directlyParents doc node nm = true.
Proof.
  rewrite Hnav. unfold SpecNavigator.findFirstElementByName. cbv zeta.
  destruct (find _ _) as [p|] eqn:Hfind; [|discriminate].
  intros _ Hparent. apply node_eqb_eq in Hparent.
  apply find_some in Hfind. destruct Hfind as [Hin Hnamed].
  destruct node as [pos|]; [|destruct Hin].
  simpl in Hin. destruct (subtree doc pos) as [t|] eqn:Hsub; [|destruct Hin].
  destruct (tl_preorder t pos p Hin) as [j [r [-> Hvalid]]].
  assert (Hr : r = []).
  { apply (removelast_step pos j). simpl in Hparent.
    destruct (pos ++ j :: r) eqn:E; [now destruct pos|]. congruence. }
  subst r.
  assert (Hj : j < List.length (tree_kids t)).
  { simpl in Hvalid. apply nth_error_Some.
    destruct (nth_error (tree_kids t) j); congruence. }
  unfold Stated.directlyParents. apply existsb_exists.
  exists (Some (pos ++ [j])). split; [|exact Hnamed].
  apply (children_of doc pos t j Hsub Hj).
Qed.

(** Conversely, a node that directly parents the tag, and below which no
    deeper element has it, finds one of its own children first. *)
Lemma child_found (doc : xml_tree) (node : xml_node) (nm : string) :
  Stated.directlyParents doc node nm = true ->
  Stated.onlyChildrenNamed doc node nm ->
  let found := findFirstElementByName (nav W) doc node nm in
  (is_set found && node_eqb (parent found) node)%bool = true.
Proof.
  intros Hpar Honly. rewrite Hnav.
  unfold SpecNavigator.findFirstElementByName. cbv zeta.
  unfold Stated.directlyParents in Hpar. apply existsb_exists in Hpar.
  destruct Hpar as [c [Hc Hnamed]].
  destruct node as [pos|]; [|destruct Hc].
  unfold children in Hc. simpl in Hc.
  destruct (subtree doc pos) as [t|] eqn:Hsub; [|destruct Hc].
  apply in_map_iff in Hc. destruct Hc as [i [<- Hi]]. apply in_seq in Hi.
  assert (Hlisted : In (pos ++ [i]) (SpecNavigator.descendants doc (Some pos))).
  { simpl. rewrite Hsub. apply child_listed. lia. }
  destruct (find (SpecNavigator.is_element_named doc nm)
                 (SpecNavigator.descendants doc (Some pos))) as [p|] eqn:Hfind.
  - apply find_some in Hfind. destruct Hfind as [Hin Hp].
    rewrite (Honly p Hin Hp). simpl. apply pos_eqb_eq. reflexivity.
  - exfalso. pose proof (find_none _ _ Hfind _ Hlisted) as Hno.
    unfold SpecNavigator.is_element_named in Hno. congruence.
Qed.

Lemma walk_rows (A : Type) (should pass : A -> bool) (row : A -> ResultRow)
  (l : list A) :
  flat_map (fun n => if should n then if pass n then [row n] else [] else []) l
  = map row (filter pass (filter should l)).
Proof.
  induction l as [|n l IH]; simpl; [reflexivity|].
  destruct (should n); simpl; [|exact IH].
  destruct (pass n); simpl; now rewrite IH.
Qed.

Lemma filterByWhere_shorthand (q : Query) (doc : xml_tree) (fname : string)
  (w : WhereExpr) :
  List.length (components (extractFieldPathFromWhere (Some w))) < 2 ->
  filterByWhere W q doc fname w
  = map (selectRow W doc fname q)
      (filter (fun node => evaluateWhereExpr (nav W) doc node w 0)
         (filter (shouldEvaluate W q doc w (extractFieldPathFromWhere (Some w)))
            (map (@Some (list nat)) (preorder doc [])))).
Proof.
  intros Hshort. unfold filterByWhere.
  destruct (Nat.ltb_spec
              (List.length (components (extractFieldPathFromWhere (Some w)))) 2);
    [|lia].
  rewrite searchTree_preorder, <- walk_rows, flat_map_concat_map.
  rewrite (flat_map_concat_map _ (map _ _)), map_map. reflexivity.
Qed.

End Shorthand.

(** C3, as stated, fails: with [SELECT food.name ... WHERE price IS NULL]
    on [<menu><food><name>Toast</name></food></menu>] the element [food]
    directly parents the select field and [price IS NULL] holds there, so
    the rows as specified are [[("name", "Toast")]]; [processFile] emits no
    row, because under a null check only select fields with a single
    component make a node eligible. *)
Lemma C3_null_check_skips_path_fields :
  processFile (Sample.world "data" [("data/menu.xml", inl Sample.toastDoc)] 4)
              "data/menu.xml" Sample.toastQuery
  <> inl (Stated.shorthandRowsAsSpecified
            (Sample.world "data" [("data/menu.xml", inl Sample.toastDoc)] 4)
            Sample.toastQuery Sample.toastDoc "menu.xml" Sample.priceIsNull).
Proof. vm_compute. discriminate. Qed.

(** C3, amended: with a WHERE clause, no FOR clause and an anchor of fewer
    than two components, [processFile] walks the whole tree from the
    document node in document order and emits one row per evaluated node
    that passes.  A node is evaluated only if it directly parents the
    field that counts: for a WHERE expression that is itself one
    [IS_NULL]/[IS_NOT_NULL] condition, the node is an element other than
    the document and the field is a select field of one component that is
    not the source identifier; otherwise the field is the anchor.  Such a
    node is evaluated whenever no deeper element below it bears the
    field's name.  ([findFirstElementByName] is the depth-first, pre-order
    lookup of the first element with a given tag below a node.) *)
Theorem C3_shorthand_walk (W : World) (filepath : string) (q : Query)
  (doc : xml_tree) (w : WhereExpr) :
  findFirstElementByName (nav W) = SpecNavigator.findFirstElementByName ->
  load (loader W) filepath = inl doc ->
  for_clauses q = [] ->
  where_ q = Some w ->
  List.length (components (extractFieldPathFromWhere (Some w))) < 2 ->
  let anchor := front (components (extractFieldPathFromWhere (Some w))) in
  let nodes := map (@Some (list nat)) (preorder doc []) in
  let evaluated :=
    filter (shouldEvaluate W q doc w (extractFieldPathFromWhere (Some w)))
           nodes in
  processFile W filepath q
  = inl (map (selectRow W doc (Cxx.filename filepath) q)
           (filter (fun node => evaluateWhereExpr (nav W) doc node w 0)
                   evaluated))
  /\ (forall node, In node evaluated ->
        if isNullCheck w
        then type doc node = node_element /\ node <> doc_node
             /\ exists c, In (mkFieldPath [c] false) (select_fields q)
                          /\ Stated.directlyParents doc node c = true
        else Stated.directlyParents doc node anchor = true)
  /\ (forall node c,
        In node nodes ->
        Stated.directlyParents doc node c = true ->
        Stated.onlyChildrenNamed doc node c ->
        (if isNullCheck w
         then type doc node = node_element /\ node <> doc_node
              /\ In (mkFieldPath [c] false) (select_fields q)
         else c = anchor) ->
        In node evaluated).
Proof.
  intros Hnav Hload Hfor Hwhere Hshort anchor nodes evaluated.
  split; [|split].
  - unfold processFile. rewrite Hload, Hfor, Hwhere.
    now rewrite filterByWhere_shorthand.
  - intros node Hin. apply filter_In in Hin. destruct Hin as [_ Hshould].
    unfold shouldEvaluate in Hshould.
    destruct (isNullCheck w).
    + destruct (xml_node_type_eqb (type doc node) node_element) eqn:Hty;
        [|discriminate].
      destruct (node_eqb node doc_node) eqn:Hdoc; [discriminate|].
      simpl in Hshould. apply existsb_exists in Hshould.
      destruct Hshould as [[comps flag] [Hsel Hfield]]. simpl in Hfield.
      apply andb_prop in Hfield. destruct Hfield as [Hfield Hfound].
      apply andb_prop in Hfield. destruct Hfield as [Hflag Hone].
      apply andb_prop in Hfound. destruct Hfound as [Hset Hparent].
      destruct flag; [discriminate|].
      destruct comps as [|c [|c' comps]]; try discriminate.
      split; [now apply xml_node_type_eqb_eq|].
      split; [intros ->; discriminate|].
      exists c. split; [exact Hsel|].
      exact (found_child W Hnav doc node c Hset Hparent).
    + apply andb_prop in Hshould. destruct Hshould as [Hset Hparent].
      exact (found_child W Hnav doc node anchor Hset Hparent).
  - intros node c Hin Hpar Honly Hcase. apply filter_In. split; [exact Hin|].
    unfold shouldEvaluate.
    destruct (isNullCheck w).
    + destruct Hcase as [Hty [Hdoc Hsel]].
      rewrite (proj2 (xml_node_type_eqb_eq _ _) Hty).
      destruct (node_eqb node doc_node) eqn:E;
        [apply node_eqb_eq in E; contradiction|].
      simpl. apply existsb_exists. exists (mkFieldPath [c] false).
      split; [exact Hsel|]. simpl.
      exact (child_found W Hnav doc node c Hpar Honly).
    + subst c. exact (child_found W Hnav doc node anchor Hpar Honly).
Qed.

Lemma C3_shorthand_walk_witness :
  processFile (Sample.world "data" [("data/a.xml", inl Sample.nestedDoc)] 4)
              "data/a.xml" Sample.nestedQuery
  = inl [[("x", "1")]].
Proof.
  refine (proj1
            (C3_shorthand_walk
               (Sample.world "data" [("data/a.xml", inl Sample.nestedDoc)] 4)
               "data/a.xml" Sample.nestedQuery Sample.nestedDoc
               (WhereCondition (Sample.field ["x"]) EQ (Some "1") true)
               eq_refl eq_refl eq_refl eq_refl _)).
  vm_compute. apply le_n.
Defined.

(** The walk in a document where an anchor lies deeper than a sibling
    anchor: in [<a><b><x>1</x></b><x>1</x></a>] with [WHERE x = 1] the
    element [a] directly parents an [x] and the WHERE expression holds
    there, yet [a] is not evaluated, because the first [x] found below [a]
    is the one inside [b]; the file yields one row, from [b]. *)
Example shorthand_walk_nested_anchor :
  let W := Sample.world "data" [("data/a.xml", inl Sample.nestedDoc)] 4 in
  let w := WhereCondition (Sample.field ["x"]) EQ (Some "1") true in
  let a := Some [0] in
  let b := Some [0; 0] in
  type Sample.nestedDoc a = node_element
  /\ Stated.directlyParents Sample.nestedDoc a "x" = true
  /\ Stated.directlyParents Sample.nestedDoc b "x" = true
  /\ evaluateWhereExpr (nav W) Sample.nestedDoc a w 0 = true
  /\ evaluateWhereExpr (nav W) Sample.nestedDoc b w 0 = true
  /\ shouldEvaluate W Sample.nestedQuery Sample.nestedDoc w
       (extractFieldPathFromWhere (Some w)) a = false
  /\ shouldEvaluate W Sample.nestedQuery Sample.nestedDoc w
       (extractFieldPathFromWhere (Some w)) b = true
  /\ processFile W "data/a.xml" Sample.nestedQuery = inl [[("x", "1")]].
Proof. vm_compute. repeat split; reflexivity. Qed.

(** ** The ORDER BY comparator *)

Section Comparator.

Lemma SFcompare_refl (x : Cxx.double) :
  SFcompare x x = Some Eq \/ SFcompare x x = None.
Proof.
  destruct x as [s|s| |s m e]; simpl; auto.
  - destruct s; auto.
  - left. rewrite Z.compare_refl, Pos.compare_cont_refl. destruct s; reflexivity.
Qed.

Lemma double_lt_irrefl (x : Cxx.double) : Cxx.double_lt x x = false.
Proof.
  unfold Cxx.double_lt, SFltb.
  destruct (SFcompare_refl x) as [-> | ->]; reflexivity.
Qed.

Lemma SFcompare_antisym (x y : Cxx.double) :
  SFcompare y x = option_map CompOpp (SFcompare x y).
Proof.
  destruct x as [s1|s1| |s1 m1 e1], y as [s2|s2| |s2 m2 e2]; simpl;
    try reflexivity;
    try (destruct s1; reflexivity);
    try (destruct s2; reflexivity);
    try (destruct s1, s2; reflexivity).
  rewrite (Z.compare_antisym e1 e2).
  change (Pos.compare_cont Eq m2 m1) with (Pos.compare m2 m1).
  change (Pos.compare_cont Eq m1 m2) with (Pos.compare m1 m2).
  rewrite (Pos.compare_antisym m1 m2).
  destruct s1, s2; simpl; try reflexivity;
    destruct (Z.compare e1 e2); simpl; try reflexivity;
    destruct (Pos.compare m1 m2); reflexivity.
Qed.

Lemma double_lt_asym (x y : Cxx.double) :
  (Cxx.double_lt x y && Cxx.double_lt y x)%bool = false.
Proof.
  unfold Cxx.double_lt, SFltb. rewrite (SFcompare_antisym x y).
  destruct (SFcompare x y) as [[| |]|]; reflexivity.
Qed.

Lemma string_lt_irrefl (s : string) : Cxx.string_lt s s = false.
Proof.
  unfold Cxx.string_lt, String.ltb.
  pose proof (String.compare_antisym s s) as H.
  destruct (String.compare s s); try reflexivity; discriminate.
Qed.

Lemma string_lt_asym (s t : string) :
  (Cxx.string_lt s t && Cxx.string_lt t s)%bool = false.
Proof.
  unfold Cxx.string_lt, String.ltb.
  rewrite (String.compare_antisym t s).
  destruct (String.compare s t); reflexivity.
Qed.

Lemma sortValue_find (orderField : string) (row : ResultRow) :
  sortValue orderField row
  = match find (fun p => String.eqb (fst p) orderField) row with
    | Some p => snd p
    | None => ""
    end.
Proof.
  induction row as [|[f v] row IH]; simpl; [reflexivity|].
  unfold Cxx.string_eq. destruct (String.eqb f orderField); [reflexivity|exact IH].
Qed.

Lemma orderByLess_modes (orderField : string) (a b : ResultRow) :
  orderByLess orderField a b
  = match Cxx.stod (sortValue orderField a), Cxx.stod (sortValue orderField b) with
    | Cxx.stod_value x, Cxx.stod_value y => SFltb x y
    | _, _ => String.ltb (sortValue orderField a) (sortValue orderField b)
    end.
Proof.
  unfold orderByLess.
  destruct (Cxx.stod (sortValue orderField a)); try reflexivity.
Qed.

Lemma orderByLess_irrefl (orderField : string) (a : ResultRow) :
  orderByLess orderField a a = false.
Proof.
  unfold orderByLess.
  destruct (Cxx.stod (sortValue orderField a));
    auto using double_lt_irrefl, string_lt_irrefl.
Qed.

Lemma orderByLess_asym (orderField : string) (a b : ResultRow) :
  (orderByLess orderField a b && orderByLess orderField b a)%bool = false.
Proof.
  unfold orderByLess.
  destruct (Cxx.stod (sortValue orderField a)),
           (Cxx.stod (sortValue orderField b));
    auto using double_lt_asym, string_lt_asym.
Qed.

End Comparator.

(** C4, as stated, fails: on the rows whose sort values are ["3"], ["+5"]
    and ["-"] the comparator is not a strict weak ordering.  ["3"] is below
    ["+5"] numerically and ["+5"] is below ["-"] as a string, but ["3"] is
    not below ["-"]. *)
Lemma C4_not_strict_weak_ordering :
  ~ Stated.strict_weak_ordering_on
      [Sample.keyed "3"; Sample.keyed "+5"; Sample.keyed "-"]
      (orderByLess "k").
Proof.
  intros [_ [Htrans _]].
  specialize (Htrans (Sample.keyed "3") (Sample.keyed "+5") (Sample.keyed "-")).
  assert (H : orderByLess "k" (Sample.keyed "3") (Sample.keyed "-") = true).
  { apply Htrans;
      [ left; reflexivity
      | right; left; reflexivity
      | right; right; left; reflexivity
      | vm_compute; reflexivity
      | vm_compute; reflexivity ]. }
  vm_compute in H. discriminate H.
Qed.

(** C4, amended: ORDER BY sorts by the first named field only, with a
    comparator that reads each row's value at the sort column (that of the
    first pair with this name, the empty string when there is none),
    compares the two values as doubles when [std::stod] succeeds on both,
    and as strings otherwise.  The comparator is a total function (nothing
    escapes the [catch (...)]), it is irreflexive and asymmetric on all
    rows, and on the values ["10"], ["2"], ["abc"] it is the strict total
    order ["2"] < ["10"] < ["abc"]. *)
Theorem C4_order_by_comparator :
  (forall (W : World) (q : Query) (results : list ResultRow),
      applyOrderBy W q results
      = match order_by_fields q with
        | [] => results
        | orderField :: _ => std_sort W (orderByLess orderField) results
        end)
  /\ (forall (orderField : string) (row : ResultRow),
        sortValue orderField row
        = match find (fun p => String.eqb (fst p) orderField) row with
          | Some p => snd p
          | None => ""
          end)
  /\ (forall (orderField : string) (a b : ResultRow),
        orderByLess orderField a b
        = match Cxx.stod (sortValue orderField a),
                Cxx.stod (sortValue orderField b) with
          | Cxx.stod_value x, Cxx.stod_value y => SFltb x y
          | _, _ => String.ltb (sortValue orderField a) (sortValue orderField b)
          end)
  /\ (forall (orderField : string) (a : ResultRow),
        orderByLess orderField a a = false)
  /\ (forall (orderField : string) (a b : ResultRow),
        (orderByLess orderField a b && orderByLess orderField b a)%bool = false)
  /\ (let lt x y := orderByLess "k" (Sample.keyed x) (Sample.keyed y) in
      lt "2" "10" = true /\ lt "10" "abc" = true /\ lt "2" "abc" = true
      /\ lt "10" "2" = false /\ lt "abc" "10" = false /\ lt "abc" "2" = false
      /\ Stated.strict_weak_ordering_on
           [Sample.keyed "10"; Sample.keyed "2"; Sample.keyed "abc"]
           (orderByLess "k")).
Proof.
  split; [reflexivity|].
  split; [exact sortValue_find|].
  split; [exact orderByLess_modes|].
  split; [exact orderByLess_irrefl|].
  split; [exact orderByLess_asym|].
  cbv zeta.
  do 6 (split; [vm_compute; reflexivity|]).
  split; [|split].
  - intros a _. apply orderByLess_irrefl.
  - intros a b c Ha Hb Hc.
    simpl in Ha, Hb, Hc.
    destruct Ha as [<-|[<-|[<-|[]]]], Hb as [<-|[<-|[<-|[]]]],
             Hc as [<-|[<-|[<-|[]]]];
      vm_compute; intros; congruence.
  - intros a b c Ha Hb Hc.
    simpl in Ha, Hb, Hc. unfold Stated.incomparable.
    destruct Ha as [<-|[<-|[<-|[]]]], Hb as [<-|[<-|[<-|[]]]],
             Hc as [<-|[<-|[<-|[]]]];
      vm_compute; intros [? ?] [? ?]; split; congruence.
Qed.

(** ** The sequential loops *)

Section Sequential.

Variable W : World.
Variable q : Query.

Lemma fold_processNext (xmlFiles : list string) (acc : Run) :
  fold_left (processNext W q) xmlFiles acc
  = mkRun (allResults acc ++ Stated.sequentialRows W q xmlFiles)
          (cerr acc ++ Stated.failureLines W q xmlFiles).
Proof.
  revert acc; induction xmlFiles as [|f fs IH]; intros [res log]; simpl.
  - now rewrite !app_nil_r.
  - rewrite IH. unfold processNext. simpl.
    destruct (processFile W f q) as [fileResults|what]; simpl;
      now rewrite <- !app_assoc.
Qed.

(** The index loop of [executeWithProgress] visits the files in
    enumeration order. *)
Lemma fold_processIndexed (xmlFiles : list string) (cb : bool)
  (idxs : list nat) (st : Pool) :
  let st' := fold_left (processIndexed W xmlFiles q cb) idxs st in
  merged st'
  = merged st
    ++ Stated.sequentialRows W q (map (fun i => nth i xmlFiles "") idxs)
  /\ pool_cerr st'
     = pool_cerr st
       ++ Stated.failureLines W q (map (fun i => nth i xmlFiles "") idxs).
Proof.
  revert st; induction idxs as [|i idxs IH]; intros st; simpl.
  - now rewrite !app_nil_r.
  - destruct (IH (processIndexed W xmlFiles q cb st i)) as [Hm Hc].
    rewrite Hm, Hc. unfold processIndexed.
    destruct (processFile W (nth i xmlFiles "") q) as [fileResults|what];
      simpl; now rewrite <- !app_assoc.
Qed.

Lemma indexed_files (xmlFiles : list string) :
  map (fun i => nth i xmlFiles "") (seq 0 (List.length xmlFiles)) = xmlFiles.
Proof.
  rewrite (map_nth_seq _ _ (fun s : string => s)). apply map_id.
Qed.

Lemma execute_rows :
  execute W q
  = match fst (getXmlFiles W (from_path q)) with
    | [] => mkRun [] (snd (getXmlFiles W (from_path q)) ++ [noFilesLine q])
    | xmlFiles =>
        mkRun (applyLimit q (applyOrderBy W q (Stated.sequentialRows W q xmlFiles)))
              (snd (getXmlFiles W (from_path q))
               ++ Stated.failureLines W q xmlFiles)
    end.
Proof.
  unfold execute.
  destruct (getXmlFiles W (from_path q)) as [xmlFiles scanLog]. simpl fst; simpl snd.
  destruct xmlFiles as [|f fs]; [reflexivity|].
  rewrite fold_processNext. reflexivity.
Qed.

Lemma applyOrderBy_nil : applyOrderBy W q [] = [].
Proof.
  unfold applyOrderBy. destruct (order_by_fields q); [reflexivity|].
  apply std_sort_nil.
Qed.

Lemma applyLimit_nil : applyLimit q [] = [].
Proof.
  unfold applyLimit. destruct (_ && _)%bool; [apply firstn_nil|reflexivity].
Qed.

(** Sorting and truncating no rows leaves no rows, so the early return
    on an empty file list needs no case of its own. *)
Lemma execute_allResults :
  allResults (execute W q)
  = applyLimit q
      (applyOrderBy W q
         (Stated.sequentialRows W q (fst (getXmlFiles W (from_path q))))).
Proof.
  rewrite execute_rows.
  destruct (fst (getXmlFiles W (from_path q))) as [|f fs]; [|reflexivity].
  simpl. now rewrite applyOrderBy_nil, applyLimit_nil.
Qed.

Lemma applyLimit_Z (results : list ResultRow) :
  applyLimit q results
  = if ((0 <=? limit q)%Z && (limit q <? Z.of_nat (List.length results))%Z)%bool
    then firstn (Z.to_nat (limit q)) results
    else results.
Proof.
  unfold applyLimit.
  destruct (Z.leb_spec 0 (limit q)) as [Hpos|Hneg]; simpl; [|reflexivity].
  destruct (Nat.ltb_spec (Z.to_nat (limit q)) (List.length results)),
           (Z.ltb_spec (limit q) (Z.of_nat (List.length results)));
    try reflexivity; lia.
Qed.

End Sequential.

Section WithProgress.

Variable W : World.
Variable q : Query.

Lemma executeWithProgress_rows (cb : bool) (stats : option ExecutionStats)
  (sched : list sched_event) :
  rows (executeWithProgress W q cb stats sched)
  = match fst (getXmlFiles W (from_path q)) with
    | [] => []
    | xmlFiles =>
        applyLimit q (applyOrderBy W q (Stated.mergedRows W q cb sched xmlFiles))
    end.
Proof.
  unfold executeWithProgress, Stated.mergedRows.
  destruct (getXmlFiles W (from_path q)) as [xmlFiles scanLog]. simpl fst.
  destruct xmlFiles as [|f fs]; [reflexivity|].
  set (xmlFiles := f :: fs).
  destruct (shouldUseThreading (List.length xmlFiles)); cbn [rows merged].
  - reflexivity.
  - destruct (fold_processIndexed W q xmlFiles cb
                (seq 0 (List.length xmlFiles)) (mkPool [] [] [] 0 []))
      as [Hm _].
    rewrite Hm, indexed_files. reflexivity.
Qed.

Lemma executeWithProgress_allRows (cb : bool)
  (stats : option ExecutionStats) (sched : list sched_event) :
  rows (executeWithProgress W q cb stats sched)
  = applyLimit q
      (applyOrderBy W q
         (Stated.mergedRows W q cb sched (fst (getXmlFiles W (from_path q))))).
Proof.
  rewrite executeWithProgress_rows.
  destruct (fst (getXmlFiles W (from_path q))) as [|f fs]; [|reflexivity].
  unfold Stated.mergedRows. simpl.
  now rewrite applyOrderBy_nil, applyLimit_nil.
Qed.

Lemma executeWithProgress_stats (cb : bool) (before : ExecutionStats)
  (sched : list sched_event) :
  stats_out (executeWithProgress W q cb (Some before) sched)
  = match fst (getXmlFiles W (from_path q)) with
    | [] => Some before
    | xmlFiles =>
        let n := List.length xmlFiles in
        Some (mkStats n
                (if shouldUseThreading n
                 then getOptimalThreadCount (hardware_concurrency W) else 1)
                (shouldUseThreading n))
    end.
Proof.
  unfold executeWithProgress.
  destruct (getXmlFiles W (from_path q)) as [xmlFiles scanLog]. simpl fst.
  destruct xmlFiles as [|f fs]; reflexivity.
Qed.

Lemma executeWithProgress_warnings_sequential (cb : bool)
  (stats : option ExecutionStats) (sched : list sched_event) :
  shouldUseThreading (List.length (fst (getXmlFiles W (from_path q)))) = false ->
  warnings (executeWithProgress W q cb stats sched) = cerr (execute W q).
Proof.
  intros Hseq. rewrite execute_rows. unfold executeWithProgress.
  destruct (getXmlFiles W (from_path q)) as [xmlFiles scanLog].
  simpl fst in *; simpl snd.
  destruct xmlFiles as [|f fs]; [reflexivity|].
  set (xmlFiles := f :: fs) in *. rewrite Hseq. cbn [warnings cerr].
  destruct (fold_processIndexed W q xmlFiles cb
              (seq 0 (List.length xmlFiles)) (mkPool [] [] [] 0 []))
    as [_ Hc].
  rewrite Hc, indexed_files. reflexivity.
Qed.

End WithProgress.

(** C5: the rows returned, by [execute] and by [executeWithProgress] alike,
    are the first [limit] rows of the sequence left by ORDER BY when
    [limit] is non-negative and less than the number of those rows, and all
    of them, unchanged, when [limit] is negative (absent) or at least that
    number; the truncation acts on the sorted sequence, never on the rows
    as merged. *)
Theorem C5_limit_after_sort (W : World) (q : Query) (cb : bool)
  (stats : option ExecutionStats) (sched : list sched_event) :
  let truncated (sorted : list ResultRow) :=
    if ((0 <=? limit q)%Z && (limit q <? Z.of_nat (List.length sorted))%Z)%bool
    then firstn (Z.to_nat (limit q)) sorted
    else sorted in
  let xmlFiles := fst (getXmlFiles W (from_path q)) in
  allResults (execute W q)
  = truncated (applyOrderBy W q (Stated.sequentialRows W q xmlFiles))
  /\ rows (executeWithProgress W q cb stats sched)
     = truncated (applyOrderBy W q (Stated.mergedRows W q cb sched xmlFiles)).
Proof.
  intros truncated xmlFiles. unfold truncated, xmlFiles.
  rewrite execute_allResults, executeWithProgress_allRows.
  split; apply applyLimit_Z.
Qed.

(** ** The threading decision *)

Lemma shouldUseThreading_iff (fileCount : nat) :
  shouldUseThreading fileCount = true <-> 5 <= fileCount.
Proof. unfold shouldUseThreading. apply Nat.leb_le. Qed.

(** C6, as stated, fails when there is no file: the file count, 0, is
    below the threshold, yet [executeWithProgress] returns before it writes
    the statistics block, so a block that held [used_threading = true] (and
    seven files, three threads) still holds just that: nothing reports a
    single thread or [used_threading = false]. *)
Lemma C6_no_files_nothing_reported :
  List.length (fst (getXmlFiles (Sample.world "data" [] 4)
                      (from_path Sample.menuQuery))) < 5
  /\ stats_out (executeWithProgress (Sample.world "data" [] 4)
                 Sample.menuQuery false (Some (mkStats 7 3 true)) [])
     = Some (mkStats 7 3 true)
  /\ stats_out (executeWithProgress (Sample.world "data" [] 4)
                 Sample.menuQuery false (Some (mkStats 7 3 true)) [])
     <> Some (mkStats 0 1 false)
  /\ option_map used_threading
       (stats_out (executeWithProgress (Sample.world "data" [] 4)
                     Sample.menuQuery false (Some (mkStats 7 3 true)) []))
     <> Some false.
Proof.
  split; [vm_compute; repeat constructor|].
  split; [vm_compute; reflexivity|].
  split; vm_compute; discriminate.
Qed.

(** C6, amended: the decision is taken in [executeWithProgress] alone.
    Given at least one file, it threads exactly when there are at least
    five of them; it then uses as many workers as the hardware reports, at
    most 16, and 4 when the hardware reports 0, and reports
    [used_threading = true]; with one to four files it uses one thread and
    reports a thread count of 1 and [used_threading = false].  With no
    file it returns no rows and leaves the statistics block as it was.
    [execute] never threads: it processes the files one after the other
    whatever their number. *)
Theorem C6_threading_decision (W : World) (q : Query) (cb : bool)
  (before : ExecutionStats) (sched : list sched_event) :
  let xmlFiles := fst (getXmlFiles W (from_path q)) in
  let n := List.length xmlFiles in
  let hw := hardware_concurrency W in
  let workers := Nat.min (if Nat.eqb hw 0 then 4 else hw) 16 in
  let after ms := applyLimit q (applyOrderBy W q ms) in
  (shouldUseThreading n = true <-> 5 <= n)
  /\ (5 <= n ->
      stats_out (executeWithProgress W q cb (Some before) sched)
      = Some (mkStats n workers true)
      /\ rows (executeWithProgress W q cb (Some before) sched)
         = after (merged (executeMultithreaded W xmlFiles q workers cb sched)))
  /\ (1 <= n < 5 ->
      stats_out (executeWithProgress W q cb (Some before) sched)
      = Some (mkStats n 1 false)
      /\ rows (executeWithProgress W q cb (Some before) sched)
         = after (Stated.sequentialRows W q xmlFiles))
  /\ (n = 0 ->
      stats_out (executeWithProgress W q cb (Some before) sched) = Some before
      /\ rows (executeWithProgress W q cb (Some before) sched) = [])
  /\ allResults (execute W q) = after (Stated.sequentialRows W q xmlFiles).
Proof.
  intros xmlFiles n hw workers after.
  subst after workers hw n xmlFiles.
  split; [apply shouldUseThreading_iff|].
  rewrite executeWithProgress_stats, executeWithProgress_rows, execute_allResults.
  unfold Stated.mergedRows.
  destruct (fst (getXmlFiles W (from_path q))) as [|f fs].
  - cbn [List.length].
    split; [intros Hn; lia|]. split; [intros Hn; lia|].
    split; [intros _; split; reflexivity | reflexivity].
  - set (xmlFiles := f :: fs). cbv zeta.
    split; [|split; [|split; [|reflexivity]]]; intros Hn.
    + rewrite (proj2 (shouldUseThreading_iff _) Hn). split; reflexivity.
    + replace (shouldUseThreading (List.length xmlFiles)) with false
        by (symmetry; apply Nat.leb_gt; apply Hn).
      split; reflexivity.
    + discriminate Hn.
Qed.

Lemma C6_threading_decision_witness :
  let W := Sample.world "data" Sample.batch 0 in
  stats_out (executeWithProgress W Sample.sortedQuery false
               (Some (mkStats 0 0 false)) [])
  = Some (mkStats 5 4 true).
Proof.
  intros W.
  refine (proj1 (proj1 (proj2
            (C6_threading_decision W Sample.sortedQuery false
               (mkStats 0 0 false) [])) _)).
  vm_compute. apply le_n.
Defined.

(** ** The two entry points *)

(** C10: when the query resolves to fewer than five files,
    [executeWithProgress] called without callback and without statistics
    block returns the very rows [execute] returns (and writes the same
    warnings, calls nothing, reports nothing), whatever the schedule. *)
Theorem C10_entry_points_agree (W : World) (q : Query)
  (sched : list sched_event) :
  List.length (fst (getXmlFiles W (from_path q))) < 5 ->
  rows (executeWithProgress W q false None sched) = allResults (execute W q)
  /\ warnings (executeWithProgress W q false None sched) = cerr (execute W q)
  /\ progress_calls (executeWithProgress W q false None sched) = []
  /\ stats_out (executeWithProgress W q false None sched) = None.
Proof.
  intros Hfew.
  assert (Hseq : shouldUseThreading
                   (List.length (fst (getXmlFiles W (from_path q)))) = false).
  { unfold shouldUseThreading. apply Nat.leb_gt. exact Hfew. }
  split; [|split; [|split]].
  - rewrite executeWithProgress_rows, execute_rows.
    unfold Stated.mergedRows.
    destruct (fst (getXmlFiles W (from_path q))) as [|f fs]; [reflexivity|].
    rewrite Hseq. reflexivity.
  - apply executeWithProgress_warnings_sequential. exact Hseq.
  - unfold executeWithProgress.
    destruct (getXmlFiles W (from_path q)) as [xmlFiles scanLog].
    simpl fst in Hseq.
    destruct xmlFiles as [|f fs]; [reflexivity|].
    set (xmlFiles := f :: fs) in *. rewrite Hseq. cbn [progress_calls].
    clear. generalize (seq 0 (List.length xmlFiles)).
    assert (H : forall idxs st, polled st = [] ->
      polled (fold_left (processIndexed W xmlFiles q false) idxs st) = []).
    { induction idxs as [|i idxs IH]; intros st Hst; simpl; [exact Hst|].
      apply IH. unfold processIndexed.
      destruct (processFile W (nth i xmlFiles "") q); exact Hst. }
    intros idxs. apply H. reflexivity.
  - unfold executeWithProgress.
    destruct (getXmlFiles W (from_path q)) as [xmlFiles scanLog].
    destruct xmlFiles; reflexivity.
Qed.

Lemma C10_entry_points_agree_witness :
  let W := Sample.world "data" Sample.validBatch 8 in
  rows (executeWithProgress W Sample.sortedQuery false None [run_worker 1])
  = allResults (execute W Sample.sortedQuery).
Proof.
  intros W.
  refine (proj1 (C10_entry_points_agree W Sample.sortedQuery [run_worker 1] _)).
  vm_compute. repeat constructor.
Defined.

(** ** Strided assignment *)

Section Stride.

Lemma filter_none (A : Type) (p : A -> bool) (l : list A) :
  (forall x, In x l -> p x = false) -> filter p l = [].
Proof.
  induction l as [|x l IH]; intros H; simpl; [reflexivity|].
  rewrite (H x (or_introl eq_refl)). apply IH.
  intros y Hy. apply H. now right.
Qed.

Lemma mod_gap (T idx j : nat) :
  idx < j < idx + T -> j mod T <> idx mod T.
Proof.
  intros [Hlo Hhi] E.
  pose proof (Nat.div_mod_eq j T) as Hj.
  pose proof (Nat.div_mod_eq idx T) as Hi.
  rewrite E in Hj.
  assert (Hq : idx / T < j / T) by nia.
  nia.
Qed.

(** With enough fuel the loop yields the indices from [fileIdx] on that
    are congruent to it modulo [threadCount]. *)
Lemma stridedIndices_filter (T n : nat) :
  1 <= T ->
  forall fuel idx,
    n <= idx + fuel ->
    stridedIndices fuel idx n T
    = filter (fun i => Nat.eqb (i mod T) (idx mod T)) (seq idx (n - idx)).
Proof.
  intros HT. induction fuel as [|fuel IH]; intros idx Hfuel.
  - replace (n - idx) with 0 by lia. reflexivity.
  - simpl. destruct (Nat.ltb_spec idx n) as [Hlt|Hge].
    + rewrite IH by lia.
      replace (n - idx) with (S (n - idx - 1)) by lia.
      simpl. rewrite Nat.eqb_refl. f_equal.
      assert (Hmod : (idx + T) mod T = idx mod T).
      { rewrite <- (Nat.mul_1_l T) at 1. apply Nat.Div0.mod_add. }
      rewrite Hmod.
      destruct (Nat.le_gt_cases T (n - idx)) as [Hfar|Hnear].
      * replace (n - idx - 1) with ((T - 1) + (n - (idx + T))) by lia.
        rewrite seq_app, filter_app.
        replace (S idx + (T - 1)) with (idx + T) by lia.
        rewrite (filter_none _ _ (seq (S idx) (T - 1))); [reflexivity|].
        intros j Hj. apply in_seq in Hj. apply Nat.eqb_neq.
        apply mod_gap. lia.
      * replace (n - (idx + T)) with 0 by lia. simpl.
        symmetry. apply filter_none.
        intros j Hj. apply in_seq in Hj. apply Nat.eqb_neq.
        apply mod_gap. lia.
    + replace (n - idx) with 0 by lia. reflexivity.
Qed.

Lemma workerFiles_filter (T n k : nat) :
  k < T ->
  workerFiles n T k = filter (fun i => Nat.eqb (i mod T) k) (seq 0 n).
Proof.
  intros Hk. unfold workerFiles.
  rewrite stridedIndices_filter by lia.
  rewrite (Nat.mod_small k T Hk).
  destruct (Nat.le_gt_cases k n) as [Hle|Hgt].
  - assert (Hs : seq 0 n = seq 0 k ++ seq k (n - k))
      by (rewrite <- seq_app; f_equal; lia).
    rewrite Hs, filter_app.
    rewrite (filter_none _ _ (seq 0 k)); [reflexivity|].
    intros i Hi. apply in_seq in Hi. apply Nat.eqb_neq.
    rewrite Nat.mod_small by lia. lia.
  - replace (n - k) with 0 by lia. simpl. symmetry. apply filter_none.
    intros i Hi. apply in_seq in Hi. apply Nat.eqb_neq.
    rewrite Nat.mod_small by lia. lia.
Qed.

Lemma concat_map_app_perm (A : Type) (f g : nat -> list A) (ks : list nat) :
  Permutation (List.concat (map (fun k => f k ++ g k) ks))
              (List.concat (map f ks) ++ List.concat (map g ks)).
Proof.
  induction ks as [|k ks IH]; simpl; [constructor|].
  rewrite IH, <- !app_assoc. apply Permutation_app_head.
  rewrite !app_assoc. apply Permutation_app_tail.
  apply Permutation_app_comm.
Qed.

Lemma concat_map_single (A : Type) (a : A) (r len s : nat) :
  List.concat (map (fun k => if Nat.eqb r k then [a] else []) (seq s len))
  = if (Nat.leb s r && Nat.ltb r (s + len))%bool then [a] else [].
Proof.
  revert s; induction len as [|len IH]; intros s; simpl.
  - destruct (Nat.leb_spec s r), (Nat.ltb_spec r (s + 0)); simpl;
      try reflexivity; lia.
  - rewrite IH.
    destruct (Nat.eqb_spec r s) as [->|Hne].
    + rewrite Nat.leb_refl.
      destruct (Nat.leb_spec (S s) s); [lia|]. simpl.
      destruct (Nat.ltb_spec s (s + S len)); [reflexivity|lia].
    + destruct (Nat.leb_spec (S s) r), (Nat.leb_spec s r),
               (Nat.ltb_spec r (S s + len)), (Nat.ltb_spec r (s + S len));
        simpl; try reflexivity; lia.
Qed.

Lemma classes_partition (T : nat) (l : list nat) :
  1 <= T ->
  Permutation
    (List.concat (map (fun k => filter (fun i => Nat.eqb (i mod T) k) l) (seq 0 T)))
    l.
Proof.
  intros HT. induction l as [|a l IH].
  - simpl. induction (seq 0 T); simpl; auto.
  - rewrite (map_ext
               (fun k => filter (fun i => Nat.eqb (i mod T) k) (a :: l))
               (fun k => (if Nat.eqb (a mod T) k then [a] else [])
                         ++ filter (fun i => Nat.eqb (i mod T) k) l)).
    + rewrite concat_map_app_perm, concat_map_single.
      assert (Hr : a mod T < T) by (apply Nat.mod_upper_bound; lia).
      destruct (Nat.ltb_spec (a mod T) (0 + T)); [|lia].
      simpl. constructor. exact IH.
    + intros k. simpl. destruct (Nat.eqb (a mod T) k); reflexivity.
Qed.

(** The strides of the workers partition the file indices. *)
Lemma strides_partition (T n : nat) :
  1 <= T ->
  Permutation (List.concat (map (workerFiles n T) (seq 0 T))) (seq 0 n).
Proof.
  intros HT.
  rewrite (map_ext_in (workerFiles n T)
             (fun k => filter (fun i => Nat.eqb (i mod T) k) (seq 0 n))).
  - apply classes_partition. exact HT.
  - intros k Hk. apply in_seq in Hk. apply workerFiles_filter. lia.
Qed.

Lemma workerFiles_In (T n k i : nat) :
  k < T ->
  In i (workerFiles n T k) <-> i < n /\ i mod T = k.
Proof.
  intros Hk. rewrite workerFiles_filter by exact Hk.
  rewrite filter_In, in_seq, Nat.eqb_eq. intuition lia.
Qed.

Lemma workerFiles_NoDup (T n k : nat) :
  k < T -> NoDup (workerFiles n T k).
Proof.
  intros Hk. rewrite workerFiles_filter by exact Hk.
  apply NoDup_filter, seq_NoDup.
Qed.

End Stride.

(** ** The thread pool *)

Section PoolFacts.

Variable W : World.
Variable q : Query.
Variable xmlFiles : list string.
Variable threadCount : nat.
Variable cb : bool.

Local Abbreviation step := (poolStep W xmlFiles q threadCount cb).
Local Abbreviation rowsOf := (Stated.rowsAt W q xmlFiles).
Local Abbreviation errorsOf := (Stated.errorsAt W q xmlFiles).

Lemma concat_setWorker (ps : list (list nat)) (k x : nat) (rest : list nat) :
  nth_error ps k = Some (x :: rest) ->
  Permutation (x :: List.concat (setWorker ps k rest)) (List.concat ps).
Proof.
  revert k; induction ps as [|p ps IH]; intros [|k] H; simpl in *;
    try discriminate.
  - injection H as ->. reflexivity.
  - rewrite <- (IH k H). apply Permutation_middle.
Qed.

Lemma nth_setWorker (ps : list (list nat)) (k x : nat) (rest : list nat) :
  nth_error ps k = Some (x :: rest) ->
  forall j,
    nth j (setWorker ps k rest) []
    = if Nat.eqb j k then tl (nth j ps []) else nth j ps [].
Proof.
  revert k; induction ps as [|p ps IH]; intros [|k] H [|j]; simpl in *;
    try discriminate; try reflexivity.
  - injection H as ->. reflexivity.
  - apply (IH k H j).
Qed.

(** A worker step drops the head of that worker's stride and leaves the
    other strides alone. *)
Lemma step_pending (st : Pool) (ev : sched_event) (j : nat) :
  nth j (pending (step st ev)) []
  = match ev with
    | run_worker k =>
        if Nat.eqb j k then tl (nth j (pending st) []) else nth j (pending st) []
    | poll_progress => nth j (pending st) []
    end.
Proof.
  destruct ev as [k|]; simpl.
  - destruct (nth_error (pending st) k) as [[|x rest]|] eqn:E.
    + destruct (Nat.eqb_spec j k) as [->|]; [|reflexivity].
      now rewrite (nth_error_nth _ _ _ E).
    + assert (Hn : forall st', pending st' = setWorker (pending st) k rest ->
                     nth j (pending st') []
                     = if Nat.eqb j k then tl (nth j (pending st) [])
                       else nth j (pending st) []).
      { intros st' ->. apply (nth_setWorker _ _ _ _ E). }
      destruct (processFile W (nth x xmlFiles "") q); apply Hn; reflexivity.
    + destruct (Nat.eqb_spec j k) as [->|]; [|reflexivity].
      apply nth_error_None in E. now rewrite nth_overflow.
  - destruct cb; reflexivity.
Qed.

(** What has been merged and what is still pending together never
    change: a step only moves one file from pending to merged. *)
Lemma step_conserves (st : Pool) (ev : sched_event) :
  Permutation (merged (step st ev)
               ++ flat_map rowsOf (List.concat (pending (step st ev))))
              (merged st ++ flat_map rowsOf (List.concat (pending st)))
  /\ Permutation (pool_cerr (step st ev)
                  ++ flat_map errorsOf (List.concat (pending (step st ev))))
                 (pool_cerr st ++ flat_map errorsOf (List.concat (pending st)))
  /\ completed (step st ev) + List.length (List.concat (pending (step st ev)))
     = completed st + List.length (List.concat (pending st)).
Proof.
  destruct ev as [k|]; simpl.
  - destruct (nth_error (pending st) k) as [[|x rest]|] eqn:E; auto.
    pose proof (concat_setWorker _ _ _ _ E) as Hperm.
    pose proof (Permutation_flat_map rowsOf Hperm) as Hrows.
    pose proof (Permutation_flat_map errorsOf Hperm) as Herrs.
    pose proof (Permutation_length Hperm) as Hlen.
    simpl in Hrows, Herrs, Hlen. unfold Stated.rowsAt, Stated.errorsAt in *.
    destruct (processFile W (nth x xmlFiles "") q) as [fileResults|what];
      simpl in *.
    + repeat split.
      * rewrite <- app_assoc. now apply Permutation_app_head.
      * now apply Permutation_app_head.
      * lia.
    + repeat split.
      * now apply Permutation_app_head.
      * rewrite <- app_assoc. now apply Permutation_app_head.
      * lia.
  - destruct cb; simpl; auto.
Qed.

Lemma run_conserves (evs : list sched_event) (st : Pool) :
  let st' := fold_left step evs st in
  Permutation (merged st' ++ flat_map rowsOf (List.concat (pending st')))
              (merged st ++ flat_map rowsOf (List.concat (pending st)))
  /\ Permutation (pool_cerr st' ++ flat_map errorsOf (List.concat (pending st')))
                 (pool_cerr st ++ flat_map errorsOf (List.concat (pending st)))
  /\ completed st' + List.length (List.concat (pending st'))
     = completed st + List.length (List.concat (pending st)).
Proof.
  revert st; induction evs as [|ev evs IH]; intros st; simpl.
  - auto.
  - destruct (IH (step st ev)) as [H1 [H2 H3]].
    destruct (step_conserves st ev) as [G1 [G2 G3]].
    repeat split.
    + now rewrite H1.
    + now rewrite H2.
    + lia.
Qed.

Lemma step_bounded (n : nat) (st : Pool) (ev : sched_event) :
  Stated.bounded n st -> Stated.bounded n (step st ev).
Proof.
  intros Hb j. rewrite step_pending. specialize (Hb j).
  destruct ev as [k|]; [|exact Hb].
  destruct (Nat.eqb j k); [|exact Hb].
  destruct (nth j (pending st) []); simpl in *; lia.
Qed.

Lemma run_bounded (n : nat) (evs : list sched_event) (st : Pool) :
  Stated.bounded n st -> Stated.bounded n (fold_left step evs st).
Proof.
  revert st; induction evs as [|ev evs IH]; intros st Hb; simpl;
    [exact Hb|].
  apply IH, step_bounded, Hb.
Qed.

Lemma run_keeps_empty (evs : list sched_event) (st : Pool) (j : nat) :
  nth j (pending st) [] = [] ->
  nth j (pending (fold_left step evs st)) [] = [].
Proof.
  revert st; induction evs as [|ev evs IH]; intros st He; simpl;
    [exact He|].
  apply IH. rewrite step_pending.
  destruct ev as [k|]; [|exact He].
  destruct (Nat.eqb j k); [|exact He]. now rewrite He.
Qed.

(** Running one worker [m] times takes [m] indices off its stride. *)
Lemma run_worker_repeat (k m : nat) (st : Pool) (j : nat) :
  nth j (pending (fold_left step (repeat (run_worker k) m) st)) []
  = if Nat.eqb j k then skipn m (nth j (pending st) [])
    else nth j (pending st) [].
Proof.
  revert st; induction m as [|m IH]; intros st; cbn [repeat fold_left].
  - now destruct (Nat.eqb j k).
  - rewrite IH, (step_pending st (run_worker k) j).
    destruct (Nat.eqb j k); [|reflexivity].
    destruct (nth j (pending st) []); simpl; [|reflexivity].
    now rewrite skipn_nil.
Qed.

(** Joining empties the stride of every worker joined. *)
Lemma join_empties (n : nat) (ks : list nat) (st : Pool) (j : nat) :
  Stated.bounded n st ->
  In j ks \/ nth j (pending st) [] = [] ->
  nth j (pending
           (fold_left step
              (flat_map (fun k => repeat (run_worker k) n) ks) st)) [] = [].
Proof.
  revert st; induction ks as [|k ks IH]; intros st Hb Hj; simpl.
  - destruct Hj as [[]|He]; exact He.
  - rewrite fold_left_app. apply IH.
    + apply run_bounded, Hb.
    + rewrite run_worker_repeat.
      destruct (Nat.eqb_spec j k) as [->|Hne].
      * right. apply skipn_all2. apply Hb.
      * destruct Hj as [[Heq|Hin]|He]; [congruence | now left | now right].
Qed.

Lemma all_empty_concat (ps : list (list nat)) :
  (forall j, nth j ps [] = []) -> List.concat ps = [].
Proof.
  induction ps as [|p ps IH]; intros H; simpl; [reflexivity|].
  rewrite (H 0 : p = []). simpl. apply IH. intros j. apply (H (S j)).
Qed.

Lemma stridedIndices_length (fuel idx n T : nat) :
  List.length (stridedIndices fuel idx n T) <= fuel.
Proof.
  revert idx; induction fuel as [|fuel IH]; intros idx; simpl; [lia|].
  destruct (Nat.ltb idx n); simpl; [|lia]. specialize (IH (idx + T)). lia.
Qed.

Lemma launch_bounded (n T : nat) : Stated.bounded n (launch n T).
Proof.
  intros j. unfold launch. simpl.
  destruct (Nat.lt_ge_cases j (List.length (map (workerFiles n T) (seq 0 T))))
    as [Hlt|Hge].
  - rewrite (nth_indep _ [] (workerFiles n T 0)) by exact Hlt.
    rewrite map_nth. apply stridedIndices_length.
  - rewrite nth_overflow by exact Hge. simpl. lia.
Qed.

Lemma rows_by_index (idxs : list nat) :
  flat_map rowsOf idxs
  = Stated.sequentialRows W q (map (fun i => nth i xmlFiles "") idxs).
Proof.
  induction idxs as [|i idxs IH]; simpl; [reflexivity|].
  now rewrite IH.
Qed.

Lemma errors_by_index (idxs : list nat) :
  flat_map errorsOf idxs
  = Stated.failureLines W q (map (fun i => nth i xmlFiles "") idxs).
Proof.
  induction idxs as [|i idxs IH]; simpl; [reflexivity|].
  now rewrite IH.
Qed.

(** Whatever the interleaving, the pool ends with every stride empty, every
    file counted, and the rows (and error lines) of the sequential run,
    in some order. *)
Lemma executeMultithreaded_outcome (sched : list sched_event) :
  1 <= threadCount ->
  let st := executeMultithreaded W xmlFiles q threadCount cb sched in
  List.concat (pending st) = []
  /\ Permutation (merged st) (Stated.sequentialRows W q xmlFiles)
  /\ Permutation (pool_cerr st) (Stated.failureLines W q xmlFiles)
  /\ completed st = List.length xmlFiles.
Proof.
  intros HT st.
  set (n := List.length xmlFiles).
  assert (Hempty : List.concat (pending st) = []).
  { apply all_empty_concat. intros j. unfold st, executeMultithreaded.
    rewrite fold_left_app. apply join_empties.
    - apply run_bounded, launch_bounded.
    - destruct (Nat.lt_ge_cases j threadCount) as [Hlt|Hge].
      + left. apply in_seq. lia.
      + right. apply run_keeps_empty. unfold launch. simpl.
        apply nth_overflow. rewrite length_map, length_seq. exact Hge. }
  pose proof (run_conserves (sched ++ joinAll n threadCount)
                (launch n threadCount)) as Hrun.
  cbv zeta in Hrun.
  change (fold_left (poolStep W xmlFiles q threadCount cb)
            (sched ++ joinAll n threadCount) (launch n threadCount))
    with st in Hrun.
  destruct Hrun as [Hrows [Herrs Hcount]].
  rewrite Hempty in Hrows, Herrs, Hcount. simpl in Hrows, Herrs, Hcount.
  rewrite !app_nil_r in *.
  pose proof (strides_partition threadCount n HT) as Hpart.
  repeat split.
  - exact Hempty.
  - rewrite Hrows, (Permutation_flat_map rowsOf Hpart), rows_by_index.
    unfold n. now rewrite indexed_files.
  - rewrite Herrs, (Permutation_flat_map errorsOf Hpart), errors_by_index.
    unfold n. now rewrite indexed_files.
  - rewrite Nat.add_0_r in Hcount. rewrite Hcount.
    rewrite (Permutation_length Hpart). apply length_seq.
Qed.

(** The rows of a file are appended in one piece: what has been merged
    is, block after block, the rows of the files handled so far, in the
    order in which they were handled. *)
Lemma step_blocks (all : list nat) (st : Pool) (ev : sched_event) :
  (exists handled,
      merged st = flat_map rowsOf handled
      /\ Permutation (handled ++ List.concat (pending st)) all) ->
  exists handled,
    merged (step st ev) = flat_map rowsOf handled
    /\ Permutation (handled ++ List.concat (pending (step st ev))) all.
Proof.
  intros [handled [Hm Hp]]. destruct ev as [k|]; simpl.
  - destruct (nth_error (pending st) k) as [[|x rest]|] eqn:E;
      try (exists handled; split; assumption).
    pose proof (concat_setWorker _ _ _ _ E) as Hperm.
    assert (Hall : Permutation
                     ((handled ++ [x])
                      ++ List.concat (setWorker (pending st) k rest)) all).
    { rewrite <- app_assoc. simpl. rewrite <- Hp.
      apply Permutation_app_head. exact Hperm. }
    assert (Hrows : flat_map rowsOf (handled ++ [x])
                    = merged st ++ rowsOf x).
    { rewrite flat_map_app. simpl. now rewrite app_nil_r, Hm. }
    unfold Stated.rowsAt in Hrows at 2.
    destruct (processFile W (nth x xmlFiles "") q) as [fileResults|what];
      exists (handled ++ [x]); simpl; split; try exact Hall.
    + now rewrite Hrows.
    + now rewrite Hrows, app_nil_r.
  - destruct cb; exists handled; split; assumption.
Qed.

Lemma run_blocks (all : list nat) (evs : list sched_event) (st : Pool) :
  (exists handled,
      merged st = flat_map rowsOf handled
      /\ Permutation (handled ++ List.concat (pending st)) all) ->
  exists handled,
    merged (fold_left step evs st) = flat_map rowsOf handled
    /\ Permutation
         (handled ++ List.concat (pending (fold_left step evs st))) all.
Proof.
  revert st; induction evs as [|ev evs IH]; intros st Hst; simpl;
    [exact Hst|].
  apply IH, step_blocks, Hst.
Qed.

(** Whatever the interleaving, the pool merges the files' rows file by
    file: each file's rows stay together and in their own order. *)
Lemma executeMultithreaded_blocks (sched : list sched_event) :
  1 <= threadCount ->
  exists order,
    Permutation order (seq 0 (List.length xmlFiles))
    /\ merged (executeMultithreaded W xmlFiles q threadCount cb sched)
       = flat_map rowsOf order.
Proof.
  intros HT.
  destruct (executeMultithreaded_outcome sched HT) as [Hempty _].
  destruct (run_blocks (seq 0 (List.length xmlFiles))
              (sched ++ joinAll (List.length xmlFiles) threadCount)
              (launch (List.length xmlFiles) threadCount))
    as [order [Hm Hp]].
  - exists []. split; [reflexivity|]. simpl.
    apply strides_partition. exact HT.
  - exists order. unfold executeMultithreaded in *.
    rewrite Hempty, app_nil_r in Hp. split; assumption.
Qed.

End PoolFacts.

(** C7: for every query, file list, positive worker count and interleaving,
    the strided assignment gives every file index to exactly one worker
    (worker [k] holds the indices congruent to [k] modulo the worker count,
    each once, and the strides together are the indices [0 .. n-1]), and
    the rows merged by the pool before ORDER BY and LIMIT are, as a
    multiset, the rows of the same files processed one after the other in
    enumeration order.  Only the order of the files differs: the
    sequential run lays the files' rows end to end in enumeration order,
    the pool lays the same blocks of rows, each in its own order, end to
    end in some other order of the files. *)
Theorem C7_strided_merge (W : World) (q : Query) (xmlFiles : list string)
  (threadCount : nat) (cb : bool) (sched : list sched_event) :
  1 <= threadCount ->
  let n := List.length xmlFiles in
  (forall i k, k < threadCount ->
     (In i (workerFiles n threadCount k) <-> i < n /\ i mod threadCount = k))
  /\ (forall k, k < threadCount -> NoDup (workerFiles n threadCount k))
  /\ Permutation
       (List.concat (map (workerFiles n threadCount) (seq 0 threadCount)))
       (seq 0 n)
  /\ Permutation
       (merged (executeMultithreaded W xmlFiles q threadCount cb sched))
       (Stated.sequentialRows W q xmlFiles)
  /\ Stated.sequentialRows W q xmlFiles
     = flat_map (Stated.rowsAt W q xmlFiles) (seq 0 n)
  /\ exists order : list nat,
       Permutation order (seq 0 n)
       /\ merged (executeMultithreaded W xmlFiles q threadCount cb sched)
          = flat_map (Stated.rowsAt W q xmlFiles) order.
Proof.
  intros HT n. split; [|split; [|split; [|split; [|split]]]].
  - intros i k Hk. apply workerFiles_In. exact Hk.
  - intros k Hk. apply workerFiles_NoDup. exact Hk.
  - apply strides_partition. exact HT.
  - apply (executeMultithreaded_outcome W q xmlFiles threadCount cb sched HT).
  - unfold n. now rewrite rows_by_index, indexed_files.
  - apply (executeMultithreaded_blocks W q xmlFiles threadCount cb sched HT).
Qed.

Lemma C7_strided_merge_witness :
  let W := Sample.world "data" Sample.batch 2 in
  let xmlFiles := map fst Sample.batch in
  Permutation
    (merged (executeMultithreaded W xmlFiles Sample.menuQuery 2 true
               [run_worker 1; poll_progress; run_worker 0; run_worker 1]))
    (Stated.sequentialRows W Sample.menuQuery xmlFiles).
Proof.
  intros W xmlFiles.
  refine (proj1 (proj2 (proj2 (proj2
            (C7_strided_merge W Sample.menuQuery xmlFiles 2 true
               [run_worker 1; poll_progress; run_worker 0; run_worker 1] _))))).
  apply le_S, le_n.
Defined.

(** ** Failing files *)

Section Isolation.

Variable W : World.
Variable q : Query.

Lemma processFile_withoutFailing (filepath : string) :
  processFile (Stated.withoutFailing W q) filepath q = processFile W filepath q.
Proof. reflexivity. Qed.

Lemma getXmlFiles_withoutFailing (p : string) :
  fst (getXmlFiles (Stated.withoutFailing W q) p)
  = filter (Stated.succeeds W q) (fst (getXmlFiles W p)).
Proof.
  unfold getXmlFiles, Stated.withoutFailing. simpl.
  destruct (status W p) as [|entries failure| |what]; simpl; try reflexivity.
  - destruct (isXmlFile (loader W) p) eqn:Hxml; simpl.
    + destruct (Stated.succeeds W q p); simpl; rewrite ?Hxml; reflexivity.
    + rewrite ?Hxml. reflexivity.
  - induction entries as [|e es IH]; simpl; [reflexivity|].
    destruct (Stated.succeeds W q (entry_path e)) eqn:Hok; simpl.
    + destruct (entry_is_regular_file e && isXmlFile (loader W) (entry_path e))%bool;
        simpl; [rewrite Hok; f_equal|]; exact IH.
    + destruct (entry_is_regular_file e && isXmlFile (loader W) (entry_path e))%bool;
        simpl; [rewrite Hok|]; exact IH.
Qed.

(** A failing file adds no row, a succeeding one no error line. *)
Lemma sequentialRows_succeeding (xmlFiles : list string) :
  Stated.sequentialRows W q (filter (Stated.succeeds W q) xmlFiles)
  = Stated.sequentialRows W q xmlFiles.
Proof.
  induction xmlFiles as [|f fs IH]; simpl; [reflexivity|].
  unfold Stated.succeeds at 1.
  destruct (processFile W f q) as [fileResults|what] eqn:E; simpl.
  - now rewrite E, IH.
  - exact IH.
Qed.

Lemma failureLines_succeeding (xmlFiles : list string) :
  Stated.failureLines W q (filter (Stated.succeeds W q) xmlFiles) = [].
Proof.
  induction xmlFiles as [|f fs IH]; simpl; [reflexivity|].
  unfold Stated.succeeds at 1.
  destruct (processFile W f q) as [fileResults|what] eqn:E; simpl.
  - now rewrite E, IH.
  - exact IH.
Qed.

Lemma execute_withoutFailing :
  allResults (execute (Stated.withoutFailing W q) q) = allResults (execute W q).
Proof.
  rewrite !execute_allResults, getXmlFiles_withoutFailing.
  change (Stated.sequentialRows (Stated.withoutFailing W q) q)
    with (Stated.sequentialRows W q).
  rewrite sequentialRows_succeeding. reflexivity.
Qed.

End Isolation.

(** C8, as stated, fails where the pool runs: of five files the second
    does not parse; when worker 1 handles its stride before worker 0
    starts, [executeWithProgress] returns the rows of the fourth file
    first, which no run on the four valid files alone (a sequential run,
    in enumeration order) does. *)
Lemma C8_threaded_result_differs :
  ~ exists sched',
      rows (executeWithProgress (Sample.world "data" Sample.batch 2)
              Sample.menuQuery false None [run_worker 1; run_worker 1])
      = rows (executeWithProgress
                (Stated.withoutFailing (Sample.world "data" Sample.batch 2)
                   Sample.menuQuery)
                Sample.menuQuery false None sched').
Proof.
  intros [sched' H]. vm_compute in H. discriminate H.
Qed.

(** C8, amended: a file whose processing throws is caught where it is
    processed; its error line goes to [std::cerr] and it adds no row, while
    the other files are processed as before, and the batch is never
    aborted.  [execute] returns exactly what the same query returns when
    the failing files are removed from the directory; the thread pool,
    whatever the interleaving, handles every file, merges exactly the rows
    of the files that succeed, as a multiset, and reports exactly the files
    that fail. *)
Theorem C8_failure_isolation (W : World) (q : Query) (threadCount : nat)
  (cb : bool) (sched : list sched_event) :
  1 <= threadCount ->
  let xmlFiles := fst (getXmlFiles W (from_path q)) in
  let valid := filter (Stated.succeeds W q) xmlFiles in
  let W' := Stated.withoutFailing W q in
  let pool := executeMultithreaded W xmlFiles q threadCount cb sched in
  fst (getXmlFiles W' (from_path q)) = valid
  /\ allResults (execute W q) = allResults (execute W' q)
  /\ cerr (execute W q)
     = snd (getXmlFiles W (from_path q))
       ++ match xmlFiles with
          | [] => [noFilesLine q]
          | _ => Stated.failureLines W q xmlFiles
          end
  /\ Stated.failureLines W' q valid = []
  /\ Permutation (merged pool) (Stated.sequentialRows W' q valid)
  /\ Permutation (pool_cerr pool) (Stated.failureLines W q xmlFiles)
  /\ completed pool = List.length xmlFiles.
Proof.
  intros HT xmlFiles valid W' pool.
  destruct (executeMultithreaded_outcome W q xmlFiles threadCount cb sched HT)
    as [_ [Hrows [Herrs Hcount]]].
  split; [exact (getXmlFiles_withoutFailing W q (from_path q))|].
  split; [symmetry; exact (execute_withoutFailing W q)|].
  split.
  { rewrite execute_rows. subst xmlFiles.
    destruct (fst (getXmlFiles W (from_path q))); reflexivity. }
  split; [exact (failureLines_succeeding W q xmlFiles)|].
  split; [|split; assumption].
  change (Stated.sequentialRows W' q valid)
    with (Stated.sequentialRows W q valid).
  unfold valid. rewrite sequentialRows_succeeding. exact Hrows.
Qed.

Lemma C8_failure_isolation_witness :
  allResults (execute (Sample.world "data" Sample.batch 2) Sample.sortedQuery)
  = allResults (execute (Stated.withoutFailing
                           (Sample.world "data" Sample.batch 2)
                           Sample.sortedQuery)
                        Sample.sortedQuery).
Proof.
  refine (proj1 (proj2
            (C8_failure_isolation (Sample.world "data" Sample.batch 2)
               Sample.sortedQuery 2 false [] _))).
  apply le_S, le_n.
Defined.

(** ** Ambiguous paths *)

(** The walk over the WHERE fields never adds a path that is already
    listed. *)
Lemma checkWhereFields_NoDup (W : World) (doc : xml_tree) :
  forall (w : WhereExpr) (ambiguousAttrs : list string),
    NoDup ambiguousAttrs ->
    NoDup (checkWhereFields W doc w ambiguousAttrs).
Proof.
  fix IH 1. intros [field op literal hint|connector l r] acc Hacc; simpl.
  - destruct (List.length (components field)) as [|[|n]]; try exact Hacc.
    destruct (Z.ltb 1 (countMatchingPaths (nav W) doc (components field)));
      [|exact Hacc].
    destruct (existsb (Cxx.string_eq (pathToString field)) acc) eqn:Hseen;
      [exact Hacc|].
    apply (Permutation_NoDup (Permutation_cons_append acc (pathToString field))).
    constructor; [|exact Hacc].
    intros Hin.
    assert (Hyes : existsb (Cxx.string_eq (pathToString field)) acc = true).
    { apply existsb_exists. exists (pathToString field).
      split; [exact Hin | apply String.eqb_refl]. }
    congruence.
  - destruct l as [l|], r as [r|]; auto.
Qed.

(** C9: the claim asks that every ambiguous path be reported exactly once.
    With [SELECT a.b, a.b] on a first file in which [a.b] matches two
    nodes, [checkForAmbiguousAttributes] reports ["a.b"] twice: the loop
    over the SELECT fields appends without looking for duplicates, which
    the walk over the WHERE fields does (it keeps a duplicate-free list
    duplicate-free; a path in SELECT and twice in WHERE is reported
    once). *)
Theorem C9_select_duplicates_reported_twice :
  let W := Sample.world "data" [("data/a.xml", inl Sample.twiceDoc)] 4 in
  countMatchingPaths (nav W) Sample.twiceDoc ["a"; "b"] = 2%Z
  /\ checkForAmbiguousAttributes W Sample.twiceQuery = inl ["a.b"; "a.b"]
  /\ ~ NoDup ["a.b"; "a.b"]
  /\ checkForAmbiguousAttributes W Sample.onceQuery = inl ["a.b"]
  /\ (forall (V : World) (doc : xml_tree) (w : WhereExpr) (listed : list string),
        NoDup listed -> NoDup (checkWhereFields V doc w listed)).
Proof.
  intros W.
  split; [reflexivity|].
  split; [reflexivity|].
  split.
  { intros H. inversion H as [|x l Hnotin _]. apply Hnotin. left. reflexivity. }
  split; [reflexivity|].
  exact checkWhereFields_NoDup.
Qed.

(* ================================================================== *)
(** * Further properties of the executor *)
(* ================================================================== *)

(** ** Scanning for files *)

(** X1: every path [getXmlFiles] returns passes [XmlLoader::isXmlFile]; for
    a regular file it is the path asked for, for a directory it is the path
    of one of its entries that is a regular file, and a path that is
    neither (or a filesystem error) yields no file at all. *)
Theorem X1_getXmlFiles_sound (W : World) (path f : string) :
  In f (fst (getXmlFiles W path)) ->
  isXmlFile (loader W) f = true
  /\ match status W path with
     | regular_file => f = path
     | directory entries _ =>
         exists entry, In entry entries /\ entry_path entry = f
                       /\ entry_is_regular_file entry = true
     | other_path | filesystem_error _ => False
     end.
Proof.
  unfold getXmlFiles.
  destruct (status W path) as [|entries failure| |what]; simpl.
  - destruct (isXmlFile (loader W) path) eqn:Hxml; simpl; [|tauto].
    intros [<-|[]]. split; [exact Hxml | reflexivity].
  - intros Hin. apply in_map_iff in Hin. destruct Hin as [entry [<- Hin]].
    apply filter_In in Hin. destruct Hin as [Hin Hok].
    apply andb_prop in Hok. destruct Hok as [Hreg Hxml].
    split; [exact Hxml|]. exists entry. auto.
  - tauto.
  - tauto.
Qed.

Lemma X1_getXmlFiles_sound_witness :
  isXmlFile (loader (Sample.world "data" Sample.batch 2)) "data/3.xml" = true
  /\ exists entry,
       In entry (map (fun f => mkEntry (fst f) true) Sample.batch)
       /\ entry_path entry = "data/3.xml"
       /\ entry_is_regular_file entry = true.
Proof.
  refine (X1_getXmlFiles_sound (Sample.world "data" Sample.batch 2)
            "data" "data/3.xml" _).
  simpl. right. right. left. reflexivity.
Defined.

(** X2: when the scan finds no XML file, both entry points return no row
    and end their output on [std::cerr] with the warning that names
    [from_path]; [executeWithProgress] then never calls the callback and
    leaves the statistics block as it found it. *)
Theorem X2_no_files (W : World) (q : Query) (cb : bool)
  (stats : option ExecutionStats) (sched : list sched_event) :
  fst (getXmlFiles W (from_path q)) = [] ->
  allResults (execute W q) = []
  /\ last (cerr (execute W q)) "" = noFilesLine q
  /\ rows (executeWithProgress W q cb stats sched) = []
  /\ last (warnings (executeWithProgress W q cb stats sched)) "" = noFilesLine q
  /\ progress_calls (executeWithProgress W q cb stats sched) = []
  /\ stats_out (executeWithProgress W q cb stats sched) = stats.
Proof.
  unfold execute, executeWithProgress.
  destruct (getXmlFiles W (from_path q)) as [xmlFiles scanLog]. simpl fst.
  intros ->. cbn [allResults cerr rows warnings progress_calls stats_out].
  rewrite last_last. repeat split.
Qed.

Lemma X2_no_files_witness :
  stats_out (executeWithProgress (Sample.world "elsewhere" Sample.batch 8)
               Sample.sortedQuery true (Some (mkStats 9 9 true)) [poll_progress])
  = Some (mkStats 9 9 true).
Proof.
  refine (proj2 (proj2 (proj2 (proj2 (proj2
            (X2_no_files (Sample.world "elsewhere" Sample.batch 8)
               Sample.sortedQuery true (Some (mkStats 9 9 true))
               [poll_progress] _)))))).
  reflexivity.
Defined.

(** ** Thread count *)

Lemma getOptimalThreadCount_range (hardware : nat) :
  1 <= getOptimalThreadCount hardware <= 16.
Proof.
  unfold getOptimalThreadCount.
  destruct (Nat.eqb_spec hardware 0) as [->|Hne]; simpl; lia.
Qed.

(** X4: [getOptimalThreadCount] always yields between 1 and 16 workers: the
    hardware value itself when that lies in this range, 4 when the hardware
    reports 0, and 16 above 16. *)
Theorem X4_thread_count_bounds (hardware : nat) :
  1 <= getOptimalThreadCount hardware <= 16
  /\ (1 <= hardware <= 16 -> getOptimalThreadCount hardware = hardware)
  /\ (hardware = 0 -> getOptimalThreadCount hardware = 4)
  /\ (16 <= hardware -> getOptimalThreadCount hardware = 16).
Proof.
  unfold getOptimalThreadCount.
  destruct (Nat.eqb_spec hardware 0) as [->|Hne]; simpl; lia.
Qed.

(** ** The two entry points above the threshold *)

Lemma mergedRows_permutation (W : World) (q : Query) (cb : bool)
  (sched : list sched_event) (xmlFiles : list string) :
  Permutation (Stated.mergedRows W q cb sched xmlFiles)
              (Stated.sequentialRows W q xmlFiles).
Proof.
  unfold Stated.mergedRows.
  destruct (shouldUseThreading (List.length xmlFiles)); [|reflexivity].
  apply executeMultithreaded_outcome.
  apply (getOptimalThreadCount_range (hardware_concurrency W)).
Qed.

(** X3: without ORDER BY and without LIMIT, [executeWithProgress] returns
    the rows [execute] returns, as a multiset, whatever the number of
    files, the hardware and the interleaving of the workers. *)
Theorem X3_entry_points_same_rows (W : World) (q : Query) (cb : bool)
  (stats : option ExecutionStats) (sched : list sched_event) :
  order_by_fields q = [] ->
  (limit q < 0)%Z ->
  Permutation (rows (executeWithProgress W q cb stats sched))
              (allResults (execute W q)).
Proof.
  intros Horder Hlimit.
  rewrite executeWithProgress_allRows, execute_allResults.
  unfold applyOrderBy, applyLimit. rewrite Horder.
  destruct (Z.leb_spec 0 (limit q)); [lia|]. simpl.
  apply mergedRows_permutation.
Qed.

Lemma X3_entry_points_same_rows_witness :
  Permutation
    (rows (executeWithProgress (Sample.world "data" Sample.batch 2)
             Sample.menuQuery true None [run_worker 1; run_worker 1]))
    (allResults (execute (Sample.world "data" Sample.batch 2) Sample.menuQuery)).
Proof.
  refine (X3_entry_points_same_rows (Sample.world "data" Sample.batch 2)
            Sample.menuQuery true None [run_worker 1; run_worker 1] eq_refl _).
  reflexivity.
Defined.

(** ** LIMIT *)

Lemma applyLimit_length (q : Query) (results : list ResultRow) :
  (0 <= limit q)%Z ->
  List.length (applyLimit q results) <= Z.to_nat (limit q).
Proof.
  intros Hpos. unfold applyLimit.
  destruct (Z.leb_spec 0 (limit q)); [|lia]. simpl.
  destruct (Nat.ltb_spec (Z.to_nat (limit q)) (List.length results)).
  - rewrite length_firstn. lia.
  - assumption.
Qed.

(** X5: with a LIMIT (a non-negative [limit]) neither entry point ever
    returns more than [limit] rows, whatever ORDER BY and the sort do; in
    particular LIMIT 0 returns none. *)
Theorem X5_limit_bounds_result (W : World) (q : Query) (cb : bool)
  (stats : option ExecutionStats) (sched : list sched_event) :
  (0 <= limit q)%Z ->
  List.length (allResults (execute W q)) <= Z.to_nat (limit q)
  /\ List.length (rows (executeWithProgress W q cb stats sched))
     <= Z.to_nat (limit q).
Proof.
  intros Hpos. rewrite execute_allResults, executeWithProgress_allRows.
  split; apply applyLimit_length; exact Hpos.
Qed.

Lemma X5_limit_bounds_result_witness :
  List.length
    (allResults (execute (Sample.world "data" Sample.batch 2) Sample.sortedQuery))
  <= 2.
Proof.
  refine (proj1 (X5_limit_bounds_result (Sample.world "data" Sample.batch 2)
                   Sample.sortedQuery false None [] _)).
  discriminate.
Defined.

(** ** A pool without workers *)

(** X6: called with a thread count of 0, [executeMultithreaded] launches no
    worker: whatever the files, it returns no row, reports no error and
    counts no file as completed. *)
Theorem X6_no_workers_no_rows (W : World) (q : Query)
  (xmlFiles : list string) (cb : bool) (sched : list sched_event) :
  merged (executeMultithreaded W xmlFiles q 0 cb sched) = []
  /\ pool_cerr (executeMultithreaded W xmlFiles q 0 cb sched) = []
  /\ completed (executeMultithreaded W xmlFiles q 0 cb sched) = 0.
Proof.
  unfold executeMultithreaded, joinAll, launch. simpl. rewrite app_nil_r.
  assert (H : forall evs st,
    pending st = [] -> merged st = [] -> pool_cerr st = [] -> completed st = 0 ->
    let st' := fold_left (poolStep W xmlFiles q 0 cb) evs st in
    merged st' = [] /\ pool_cerr st' = [] /\ completed st' = 0).
  { induction evs as [|ev evs IH]; intros st Hp Hm Hc Hn; cbn [fold_left].
    - auto.
    - assert (Hstep :
        let st1 := poolStep W xmlFiles q 0 cb st ev in
        pending st1 = pending st /\ merged st1 = merged st
        /\ pool_cerr st1 = pool_cerr st /\ completed st1 = completed st).
      { destruct ev as [k|]; simpl.
        - rewrite Hp. destruct k; simpl; auto.
        - destruct cb; simpl; auto. }
      destruct Hstep as [E1 [E2 [E3 E4]]].
      apply IH; congruence. }
  apply H; reflexivity.
Qed.

(** ** Progress reports *)

Section Progress.

Variable W : World.
Variable q : Query.
Variable xmlFiles : list string.

Lemma fold_processIndexed_polled (idxs : list nat) (st : Pool) :
  polled (fold_left (processIndexed W xmlFiles q true) idxs st)
  = polled st
    ++ map (fun i => (i + 1, List.length xmlFiles, 1))
         (filter (fun i => Stated.succeeds W q (nth i xmlFiles "")) idxs).
Proof.
  revert st; induction idxs as [|i idxs IH]; intros st; cbn [fold_left filter].
  - simpl. now rewrite app_nil_r.
  - rewrite IH. unfold processIndexed, Stated.succeeds.
    destruct (processFile W (nth i xmlFiles "") q) as [fileResults|what];
      cbn [polled map]; [now rewrite <- app_assoc | reflexivity].
Qed.

Lemma StronglySorted_snoc (l : list nat) (x : nat) :
  StronglySorted le l -> Forall (fun y => y <= x) l ->
  StronglySorted le (l ++ [x]).
Proof.
  induction 1 as [|a l Hl IH Ha]; intros Hx; simpl.
  - repeat constructor.
  - inversion Hx as [|? ? Hax Hlx]; subst. constructor; [apply IH, Hlx|].
    apply Forall_app. split; [exact Ha | repeat constructor; exact Hax].
Qed.

Variable threadCount : nat.

Local Abbreviation reportsInOrder :=
  (Observed.reportsInOrder (List.length xmlFiles) threadCount).

Lemma step_reportsInOrder (cb : bool) (st : Pool) (ev : sched_event) :
  reportsInOrder st ->
  reportsInOrder (poolStep W xmlFiles q threadCount cb st ev).
Proof.
  unfold Observed.reportsInOrder. intros [Hall Hsorted]. destruct ev as [k|]; simpl.
  - destruct (nth_error (pending st) k) as [[|x rest]|];
      try (split; assumption).
    destruct (processFile W (nth x xmlFiles "") q); split; simpl;
      try exact Hsorted;
      (eapply Forall_impl; [|exact Hall]); simpl; intros c H; intuition lia.
  - destruct cb; [|split; assumption]. split; simpl.
    + apply Forall_app. split; [exact Hall|]. repeat constructor.
    + rewrite map_app. apply StronglySorted_snoc; [exact Hsorted|].
      apply Forall_map. eapply Forall_impl; [|exact Hall].
      simpl. intros c H. apply H.
Qed.

Lemma run_reportsInOrder (cb : bool) (evs : list sched_event) (st : Pool) :
  reportsInOrder st ->
  reportsInOrder (fold_left (poolStep W xmlFiles q threadCount cb) evs st).
Proof.
  revert st; induction evs as [|ev evs IH]; intros st H; simpl; [exact H|].
  apply IH, step_reportsInOrder, H.
Qed.

End Progress.

(** X7: below five files, [executeWithProgress] calls the callback once for
    every file that is processed without exception, in enumeration order,
    with the file's position (from 1), the file count and 1 worker; a file
    that throws is not reported. *)
Theorem X7_sequential_progress (W : World) (q : Query)
  (stats : option ExecutionStats) (sched : list sched_event) :
  let xmlFiles := fst (getXmlFiles W (from_path q)) in
  List.length xmlFiles < 5 ->
  progress_calls (executeWithProgress W q true stats sched)
  = map (fun i => (i + 1, List.length xmlFiles, 1))
      (filter (fun i => Stated.succeeds W q (nth i xmlFiles ""))
              (seq 0 (List.length xmlFiles))).
Proof.
  intros xmlFiles. subst xmlFiles. intros Hfew.
  assert (Hseq : shouldUseThreading
                   (List.length (fst (getXmlFiles W (from_path q)))) = false).
  { unfold shouldUseThreading. apply Nat.leb_gt. exact Hfew. }
  unfold executeWithProgress.
  destruct (getXmlFiles W (from_path q)) as [xmlFiles scanLog].
  simpl fst in *. destruct xmlFiles as [|f fs]; [reflexivity|].
  set (xmlFiles := f :: fs) in *. rewrite Hseq. cbn [progress_calls].
  apply (fold_processIndexed_polled W q xmlFiles).
Qed.

Lemma X7_sequential_progress_witness :
  progress_calls
    (executeWithProgress
       (Sample.world "data"
          [("data/1.xml", inl Sample.menuDoc);
           ("data/2.xml", inr "parse error");
           ("data/3.xml", inl Sample.nestedDoc)] 8)
       Sample.sortedQuery true None [])
  = [(1, 3, 1); (3, 3, 1)].
Proof.
  refine (X7_sequential_progress
            (Sample.world "data"
               [("data/1.xml", inl Sample.menuDoc);
                ("data/2.xml", inr "parse error");
                ("data/3.xml", inl Sample.nestedDoc)] 8)
            Sample.sortedQuery None [] _).
  vm_compute. repeat constructor.
Defined.

(** X8: with five files or more, every call of the callback names the file
    count and the worker count, the completed counts it reports never
    exceed the file count and never decrease, and the last call reports
    all files completed, whatever the interleaving and however many files
    failed. *)
Theorem X8_threaded_progress (W : World) (q : Query)
  (stats : option ExecutionStats) (sched : list sched_event) :
  let n := List.length (fst (getXmlFiles W (from_path q))) in
  let threads := getOptimalThreadCount (hardware_concurrency W) in
  let calls := progress_calls (executeWithProgress W q true stats sched) in
  5 <= n ->
  Forall (fun c => Observed.reported c <= n /\ Observed.total c = n
                   /\ Observed.workers c = threads) calls
  /\ StronglySorted le (map Observed.reported calls)
  /\ last calls (0, 0, 0) = (n, n, threads).
Proof.
  intros n threads calls. subst calls threads n. intros Hmany.
  apply shouldUseThreading_iff in Hmany as Hthr.
  unfold executeWithProgress.
  destruct (getXmlFiles W (from_path q)) as [xmlFiles scanLog].
  simpl fst in *. destruct xmlFiles as [|f fs]; [simpl in Hmany; lia|].
  set (xmlFiles := f :: fs) in *. rewrite Hthr. cbn [progress_calls polled].
  set (threads := getOptimalThreadCount (hardware_concurrency W)).
  pose proof (getOptimalThreadCount_range (hardware_concurrency W)) as [HT _].
  fold threads in HT.
  destruct (executeMultithreaded_outcome W q xmlFiles threads true sched HT)
    as [_ [_ [_ Hdone]]].
  assert (Hrep : Observed.reportsInOrder (List.length xmlFiles) threads
                   (executeMultithreaded W xmlFiles q threads true sched)).
  { unfold executeMultithreaded. apply run_reportsInOrder.
    split; simpl; constructor. }
  destruct Hrep as [Hall Hsorted]. rewrite Hdone in Hall.
  split; [|split].
  - apply Forall_app. split; [exact Hall|].
    repeat constructor.
  - rewrite map_app. apply StronglySorted_snoc; [exact Hsorted|].
    apply Forall_map. eapply Forall_impl; [|exact Hall].
    simpl. intros c H. apply H.
  - apply last_last.
Qed.

Lemma X8_threaded_progress_witness :
  last (progress_calls
          (executeWithProgress (Sample.world "data" Sample.batch 2)
             Sample.menuQuery true None
             [poll_progress; run_worker 1; poll_progress; run_worker 0]))
       (0, 0, 0)
  = (5, 5, 2).
Proof.
  refine (proj2 (proj2
            (X8_threaded_progress (Sample.world "data" Sample.batch 2)
               Sample.menuQuery None
               [poll_progress; run_worker 1; poll_progress; run_worker 0] _))).
  vm_compute. repeat constructor.
Defined.

(** ** The FOR clause *)

Section ForClause.

Variable doc : xml_tree.
Variable elementName : string.

(** The recursive lambda [findElements] collects the elements with the
    given tag in document order. *)
Lemma findElements_preorder :
  forall (t : xml_tree) (pos : list nat),
    subtree doc pos = Some t ->
    findElements elementName t pos
    = map (@Some (list nat))
        (filter (fun p =>
                   (xml_node_type_eqb (type doc (Some p)) node_element
                    && String.eqb (name doc (Some p)) elementName)%bool)
                (preorder t pos)).
Proof.
  fix IH 1. intros [ty nm v kids] pos Hsub.
  cbn [findElements preorder filter].
  assert (Hhead : type doc (Some pos) = ty /\ name doc (Some pos) = nm).
  { unfold type, name, deref. rewrite Hsub. split; reflexivity. }
  destruct Hhead as [-> ->].
  assert (Hkids : forall i,
    (forall j k, nth_error kids j = Some k ->
                 subtree doc (pos ++ [i + j]) = Some k) ->
    (fix over_kids (ks : list xml_tree) (i : nat) {struct ks}
       : list xml_node :=
       match ks with
       | [] => []
       | k :: ks' =>
           findElements elementName k (pos ++ [i]) ++ over_kids ks' (S i)
       end) kids i
    = map (@Some (list nat))
        (filter (fun p =>
                   (xml_node_type_eqb (type doc (Some p)) node_element
                    && String.eqb (name doc (Some p)) elementName)%bool)
           ((fix over_kids (ks : list xml_tree) (i : nat) {struct ks}
               : list (list nat) :=
               match ks with
               | [] => []
               | k :: ks' => preorder k (pos ++ [i]) ++ over_kids ks' (S i)
               end) kids i))).
  { clear Hsub. induction kids as [|k ks IHks]; intros i Hpos; [reflexivity|].
    rewrite filter_app, map_app. f_equal.
    - apply IH. specialize (Hpos 0 k eq_refl). now rewrite Nat.add_0_r in Hpos.
    - apply IHks. intros j k' Hj. specialize (Hpos (S j) k' Hj).
      now rewrite Nat.add_succ_r in Hpos. }
  rewrite Hkids.
  - destruct (xml_node_type_eqb ty node_element && String.eqb nm elementName)%bool;
      reflexivity.
  - intros j k Hj. rewrite subtree_app, Hsub. simpl. now rewrite Hj.
Qed.

End ForClause.

(** X9: with [FOR v IN name] (a path of one component) the context nodes are
    exactly the elements of the document bearing that tag, nested ones
    included, in document order; [processFile] emits one row for each of
    them that passes the WHERE expression, and one for each of them when
    there is no WHERE clause. *)
Theorem X9_for_single_name (W : World) (filepath : string) (q : Query)
  (doc : xml_tree) (forClause : ForClause) (others : list ForClause)
  (elementName : string) :
  load (loader W) filepath = inl doc ->
  for_clauses q = forClause :: others ->
  components (path forClause) = [elementName] ->
  let passes node :=
    match where_ q with
    | Some w => evaluateWhereExpr (nav W) doc node w 0
    | None => true
    end in
  processFile W filepath q
  = inl (map (selectRow W doc (Cxx.filename filepath) q)
           (filter passes (Observed.elementsNamed doc elementName))).
Proof.
  intros Hload Hfor Hname passes.
  unfold processFile. rewrite Hload, Hfor.
  unfold processFileWithForClauses. rewrite Hfor, Hname. f_equal.
  rewrite (findElements_preorder doc elementName doc [] eq_refl).
  fold (Observed.elementsNamed doc elementName).
  unfold passes.
  induction (Observed.elementsNamed doc elementName) as [|node nodes IH];
    simpl; [reflexivity|].
  rewrite IH. destruct (where_ q) as [w|]; [|reflexivity].
  destruct (evaluateWhereExpr (nav W) doc node w 0); reflexivity.
Qed.

Lemma X9_for_single_name_witness :
  processFile (Sample.world "data" [("data/a.xml", inl Sample.nestedDoc)] 4)
    "data/a.xml"
    (mkQuery [Sample.field ["x"]] "data" None
       [mkForClause "e" (Sample.field ["x"])] [] (-1))
  = inl [[("x", "")]; [("x", "")]].
Proof.
  exact (X9_for_single_name
           (Sample.world "data" [("data/a.xml", inl Sample.nestedDoc)] 4)
           "data/a.xml"
           (mkQuery [Sample.field ["x"]] "data" None
              [mkForClause "e" (Sample.field ["x"])] [] (-1))
           Sample.nestedDoc (mkForClause "e" (Sample.field ["x"])) [] "x"
           eq_refl eq_refl eq_refl).
Defined.

(** ** What a query is read for *)

Lemma fold_left_agree (A B : Type) (f g : A -> B -> A) (l : list B) :
  (forall a b, f a b = g a b) ->
  forall a, fold_left f l a = fold_left g l a.
Proof.
  intros Hfg. induction l as [|b l IH]; intros a; simpl; [reflexivity|].
  now rewrite Hfg, IH.
Qed.

Lemma processFile_sameUpToTails (W : World) (filepath : string)
  (q q' : Query) :
  Observed.sameUpToTails q q' ->
  processFile W filepath q = processFile W filepath q'.
Proof.
  intros (Hs & _ & Hw & _ & Hf & _).
  destruct q as [sf fp w fc ob lim], q' as [sf' fp' w' fc' ob' lim'].
  cbn [select_fields where_ for_clauses] in Hs, Hw, Hf. subst sf' w'.
  unfold processFile. cbn [for_clauses where_].
  destruct (load (loader W) filepath) as [doc|what]; [|reflexivity].
  destruct fc as [|c cs], fc' as [|c' cs']; simpl in Hf; try discriminate.
  - destruct w; reflexivity.
  - injection Hf as ->. reflexivity.
Qed.

(** X10: only the first FOR clause and the first ORDER BY field are ever
    read.  Two queries that agree on the select fields, the path, the
    WHERE expression, the limit, the first FOR clause and the first
    ORDER BY field give the same run through either entry point, whatever
    further FOR clauses and ORDER BY fields they carry. *)
Theorem X10_only_first_for_and_order_by (W : World) (q q' : Query) :
  Observed.sameUpToTails q q' ->
  execute W q = execute W q'
  /\ forall (progressCallback : bool) (stats : option ExecutionStats)
            (sched : list sched_event),
       executeWithProgress W q progressCallback stats sched
       = executeWithProgress W q' progressCallback stats sched.
Proof.
  intros Hsame.
  pose proof (fun f => processFile_sameUpToTails W f q q' Hsame) as Hfile.
  destruct Hsame as (Hs & Hp & Hw & Hl & Hf & Ho).
  assert (Hsort : forall r, applyOrderBy W q r = applyOrderBy W q' r).
  { intros r. unfold applyOrderBy.
    destruct (order_by_fields q) as [|o os], (order_by_fields q') as [|o' os'];
      simpl in Ho; try discriminate; [reflexivity|].
    now injection Ho as ->. }
  assert (Hlimit : forall r, applyLimit q r = applyLimit q' r).
  { intros r. unfold applyLimit. now rewrite Hl. }
  assert (Hnone : noFilesLine q = noFilesLine q').
  { unfold noFilesLine. now rewrite Hp. }
  split.
  - unfold execute. rewrite <- Hp.
    destruct (getXmlFiles W (from_path q)) as [[|f fs] scanLog].
    + now rewrite Hnone.
    + rewrite (fold_left_agree _ _ (processNext W q) (processNext W q')).
      * now rewrite Hsort, Hlimit.
      * intros acc g. unfold processNext. now rewrite Hfile.
  - intros cb stats sched. unfold executeWithProgress. rewrite <- Hp.
    destruct (getXmlFiles W (from_path q)) as [[|f fs] scanLog].
    + now rewrite Hnone.
    + set (xmlFiles := f :: fs).
      assert (Hloop : fold_left (processIndexed W xmlFiles q cb)
                        (seq 0 (List.length xmlFiles)) (mkPool [] [] [] 0 [])
                      = fold_left (processIndexed W xmlFiles q' cb)
                          (seq 0 (List.length xmlFiles)) (mkPool [] [] [] 0 [])).
      { apply fold_left_agree. intros st i. unfold processIndexed.
        now rewrite Hfile. }
      assert (Hpool : forall T,
                executeMultithreaded W xmlFiles q T cb sched
                = executeMultithreaded W xmlFiles q' T cb sched).
      { intros T. unfold executeMultithreaded. apply fold_left_agree.
        intros st ev. unfold poolStep. destruct ev as [k|]; [|reflexivity].
        destruct (nth_error (pending st) k) as [[|i rest]|]; try reflexivity.
        now rewrite Hfile. }
      rewrite Hloop, Hpool, Hsort, Hlimit. reflexivity.
Qed.

Lemma X10_only_first_for_and_order_by_witness :
  let W := Sample.world "data" [("data/a.xml", inl Sample.nestedDoc)] 4 in
  let q := mkQuery [Sample.field ["x"]] "data" None
             [mkForClause "e" (Sample.field ["x"])] ["x"] (-1) in
  let q' := mkQuery [Sample.field ["x"]] "data" None
              [mkForClause "e" (Sample.field ["x"]);
               mkForClause "f" (Sample.field ["a"; "b"])] ["x"; "y"] (-1) in
  execute W q = execute W q'
  /\ forall (progressCallback : bool) (stats : option ExecutionStats)
            (sched : list sched_event),
       executeWithProgress W q progressCallback stats sched
       = executeWithProgress W q' progressCallback stats sched.
Proof.
  intros W q q'.
  apply (X10_only_first_for_and_order_by W q q').
  unfold Observed.sameUpToTails. repeat split; reflexivity.
Defined.

(** ** Rows under WHERE and FOR *)

Section ContextNode.

Variable W : World.

Lemma filterByWhere_from_node q doc fname w :
  for_clauses q = [] ->
  where_ q = Some w ->
  Forall (fun row =>
            exists node,
              In node (Observed.contextNodes W doc q)
              /\ Observed.passesWhere W doc q node = true
              /\ row = selectRow W doc fname q node)
         (filterByWhere W q doc fname w).
Proof.
  intros Hfor Hw.
  unfold Observed.contextNodes, Observed.passesWhere, Observed.whereDepth.
  rewrite Hfor, Hw. unfold filterByWhere. cbv zeta.
  destruct (Nat.ltb _ 2); apply Forall_forall; intros row Hin.
  - rewrite searchTree_preorder in Hin. apply in_flat_map in Hin.
    destruct Hin as [p [Hp Hrow]]. unfold visitNode in Hrow.
    destruct (shouldEvaluate _ _ _ _ _ _); [|contradiction].
    destruct (evaluateWhereExpr (nav W) doc (Some p) w 0) eqn:Hpass;
      [|contradiction].
    destruct Hrow as [<-|[]]. exists (Some p).
    split; [apply in_map; exact Hp|]. split; [exact Hpass | reflexivity].
  - apply in_flat_map in Hin. destruct Hin as [node [Hnode Hrow]].
    destruct (evaluateWhereExpr (nav W) doc node w _) eqn:Hpass;
      [|contradiction].
    destruct Hrow as [<-|[]]. exists node.
    split; [exact Hnode|]. split; [exact Hpass | reflexivity].
Qed.

Lemma processFileWithForClauses_from_node q doc fname :
  for_clauses q <> [] ->
  Forall (fun row =>
            exists node,
              In node (Observed.contextNodes W doc q)
              /\ Observed.passesWhere W doc q node = true
              /\ row = selectRow W doc fname q node)
         (processFileWithForClauses W q doc fname).
Proof.
  intros Hfor.
  unfold Observed.contextNodes, Observed.passesWhere, Observed.whereDepth,
    processFileWithForClauses.
  destruct (for_clauses q) as [|forClause rest]; [now elim Hfor|].
  assert (Hnodes :
    match components (path forClause) with
    | [elementName] => findElements elementName doc []
    | comps => findNodesByPartialPath (nav W) doc doc_node comps
    end
    = match components (path forClause) with
      | [elementName] => Observed.elementsNamed doc elementName
      | comps => findNodesByPartialPath (nav W) doc doc_node comps
      end).
  { destruct (components (path forClause)) as [|c [|c' cs]]; try reflexivity.
    apply (findElements_preorder doc c doc [] eq_refl). }
  cbv zeta. rewrite Hnodes.
  apply Forall_forall. intros row Hin. apply in_flat_map in Hin.
  destruct Hin as [node [Hnode Hrow]]. exists node.
  split; [exact Hnode|].
  destruct (where_ q) as [w|].
  - destruct (evaluateWhereExpr (nav W) doc node w 0) eqn:Hpass;
      [|contradiction].
    destruct Hrow as [<-|[]]. split; reflexivity.
  - destruct Hrow as [<-|[]]. split; reflexivity.
Qed.

End ContextNode.

(** X11: under a WHERE clause or a FOR clause every row [processFile]
    emits is computed at one node among the context nodes of the query in
    the loaded document (the matches of the first FOR clause; without FOR
    clause every node of the document, or the candidates found for the
    path of the first WHERE condition without its last component) at
    which the WHERE expression, if any, holds: each select field is
    looked up from that same node, and the source-identifier field
    carries the last component of the file's path whatever the node. *)
Theorem X11_rows_from_one_context_node (W : World) (filepath : string)
  (q : Query) (emitted : list ResultRow) (row : ResultRow) :
  processFile W filepath q = inl emitted ->
  for_clauses q <> [] \/ where_ q <> None ->
  In row emitted ->
  exists (doc : xml_tree) (node : xml_node),
    load (loader W) filepath = inl doc
    /\ In node (Observed.contextNodes W doc q)
    /\ Observed.passesWhere W doc q node = true
    /\ row = map (selectField W doc (Cxx.filename filepath) node)
               (select_fields q)
    /\ forall (i : nat) (field : FieldPath),
         nth_error (select_fields q) i = Some field ->
         include_filename field = true ->
         nth_error row i = Some ("FILE_NAME", Cxx.filename filepath).
Proof.
  intros Hrun Hctx Hin. unfold processFile in Hrun.
  destruct (load (loader W) filepath) as [doc|what]; [|discriminate].
  exists doc.
  assert (Hnode : exists node,
            In node (Observed.contextNodes W doc q)
            /\ Observed.passesWhere W doc q node = true
            /\ row = selectRow W doc (Cxx.filename filepath) q node).
  { destruct (for_clauses q) as [|c cs] eqn:Hfor.
    - destruct (where_ q) as [w|] eqn:Hw.
      + injection Hrun as <-.
        pose proof (filterByWhere_from_node W q doc (Cxx.filename filepath) w
                      Hfor Hw) as Hall.
        rewrite Forall_forall in Hall. exact (Hall row Hin).
      + destruct Hctx as [Hctx|Hctx]; now elim Hctx.
    - injection Hrun as <-.
      assert (Hsome : for_clauses q <> []) by (rewrite Hfor; discriminate).
      pose proof (processFileWithForClauses_from_node W q doc
                    (Cxx.filename filepath) Hsome) as Hall.
      rewrite Forall_forall in Hall. exact (Hall row Hin). }
  destruct Hnode as [node [Hnode [Hpass ->]]]. exists node.
  split; [reflexivity|]. split; [exact Hnode|]. split; [exact Hpass|].
  split; [reflexivity|].
  intros i field Hi Hinc. unfold selectRow.
  rewrite nth_error_map, Hi. simpl. unfold selectField. now rewrite Hinc.
Qed.

Lemma X11_rows_from_one_context_node_witness :
  exists (doc : xml_tree) (node : xml_node),
    load (loader (Sample.world "data" [("data/a.xml", inl Sample.nestedDoc)] 4))
         "data/a.xml" = inl doc
    /\ In node
         (Observed.contextNodes
            (Sample.world "data" [("data/a.xml", inl Sample.nestedDoc)] 4) doc
            (mkQuery [mkFieldPath [] true; Sample.field ["x"]] "data" None
               [mkForClause "e" (Sample.field ["x"])] [] (-1)))
    /\ Observed.passesWhere
         (Sample.world "data" [("data/a.xml", inl Sample.nestedDoc)] 4) doc
         (mkQuery [mkFieldPath [] true; Sample.field ["x"]] "data" None
            [mkForClause "e" (Sample.field ["x"])] [] (-1)) node = true
    /\ [("FILE_NAME", "a.xml"); ("x", "")]
       = map (selectField
                (Sample.world "data" [("data/a.xml", inl Sample.nestedDoc)] 4)
                doc (Cxx.filename "data/a.xml") node)
             (select_fields
                (mkQuery [mkFieldPath [] true; Sample.field ["x"]] "data" None
                   [mkForClause "e" (Sample.field ["x"])] [] (-1)))
    /\ forall (i : nat) (field : FieldPath),
         nth_error
           (select_fields
              (mkQuery [mkFieldPath [] true; Sample.field ["x"]] "data" None
                 [mkForClause "e" (Sample.field ["x"])] [] (-1))) i
         = Some field ->
         include_filename field = true ->
         nth_error [("FILE_NAME", "a.xml"); ("x", "")] i
         = Some ("FILE_NAME", Cxx.filename "data/a.xml").
Proof.
  apply (X11_rows_from_one_context_node
           (Sample.world "data" [("data/a.xml", inl Sample.nestedDoc)] 4)
           "data/a.xml"
           (mkQuery [mkFieldPath [] true; Sample.field ["x"]] "data" None
              [mkForClause "e" (Sample.field ["x"])] [] (-1))
           [[("FILE_NAME", "a.xml"); ("x", "")];
            [("FILE_NAME", "a.xml"); ("x", "")]]
           [("FILE_NAME", "a.xml"); ("x", "")]).
  - vm_compute. reflexivity.
  - left. discriminate.
  - simpl. left. reflexivity.
Defined.

(** ** The ambiguity check *)

Lemma string_append_assoc (a b c : string) :
  String.append (String.append a b) c = String.append a (String.append b c).
Proof.
  induction a as [|x a IH]; simpl; [reflexivity|]. now rewrite IH.
Qed.

Lemma pathToStringFrom_concat :
  forall (comps : list string) (c : string) (i : nat) (result : string),
    pathToStringFrom (S i) (c :: comps) result
    = String.append result
        (String.append "." (String.concat "." (c :: comps))).
Proof.
  induction comps as [|c' comps IH]; intros c i result.
  - cbn [pathToStringFrom String.concat Nat.ltb Nat.leb].
    apply string_append_assoc.
  - change (pathToStringFrom (S i) (c :: c' :: comps) result)
      with (pathToStringFrom (S (S i)) (c' :: comps)
              (String.append (String.append result ".") c)).
    rewrite IH.
    change (String.concat "." (c :: c' :: comps))
      with (String.append c
              (String.append "." (String.concat "." (c' :: comps)))).
    now rewrite !string_append_assoc.
Qed.

(** X13: the [pathToString] loop joins the components with dots. *)
Theorem X13_pathToString_joins_with_dots (field : FieldPath) :
  pathToString field = String.concat "." (components field).
Proof.
  unfold pathToString.
  destruct (components field) as [|c [|c' comps]]; try reflexivity.
  change (pathToStringFrom 0 (c :: c' :: comps) "")
    with (pathToStringFrom 1 (c' :: comps) c).
  rewrite pathToStringFrom_concat. reflexivity.
Qed.

Section Ambiguity.

Variable W : World.
Variable doc : xml_tree.

Lemma seen_In (fieldStr : string) (listed : list string) :
  existsb (Cxx.string_eq fieldStr) listed = true <-> In fieldStr listed.
Proof.
  rewrite existsb_exists. split.
  - intros [x [Hin Heq]]. apply String.eqb_eq in Heq. now subst x.
  - intros Hin. exists fieldStr. split; [exact Hin | apply String.eqb_refl].
Qed.

Lemma checkWhereFields_In :
  forall (w : WhereExpr) (listed : list string) (s : string),
    In s (checkWhereFields W doc w listed)
    <-> In s listed
        \/ exists field, In field (Observed.whereFields w)
                         /\ Observed.ambiguousIn W doc field
                         /\ s = pathToString field.
Proof.
  fix IH 1. intros [field op literal hint|connector l r] listed s.
  - cbn [checkWhereFields Observed.whereFields]. unfold Observed.ambiguousIn.
    destruct (Nat.leb_spec 2 (List.length (components field))) as [Hlen|Hlen].
    + destruct (Z.ltb_spec 1 (countMatchingPaths (nav W) doc (components field)))
        as [Hcount|Hcount].
      * destruct (existsb (Cxx.string_eq (pathToString field)) listed) eqn:Hseen.
        -- apply seen_In in Hseen. split; [now left|].
           intros [Hin|[f [[<-|[]] [_ ->]]]]; assumption.
        -- rewrite in_app_iff. split.
           ++ intros [Hin|[<-|[]]]; [now left|].
              right. exists field. repeat split; try assumption. now left.
           ++ intros [Hin|[f [[<-|[]] [_ ->]]]]; [now left|].
              right. now left.
      * split; [now left|].
        intros [Hin|[f [[<-|[]] [[_ Hc] _]]]]; [assumption|lia].
    + split; [now left|].
      intros [Hin|[f [[<-|[]] [[Hl _] _]]]]; [assumption|lia].
  - cbn [checkWhereFields Observed.whereFields].
    destruct l as [l|], r as [r|].
    + rewrite (IH r), (IH l). split.
      * intros [[Hin|[f [Hf Hrest]]]|[f [Hf Hrest]]]; [now left| |];
          right; exists f; (split; [|exact Hrest]);
          apply in_or_app; [now left|now right].
      * intros [Hin|[f [Hf Hrest]]]; [now left; left|].
        apply in_app_or in Hf. destruct Hf as [Hf|Hf].
        -- left. right. now exists f.
        -- right. now exists f.
    + rewrite (IH l), app_nil_r. reflexivity.
    + rewrite (IH r). reflexivity.
    + split; [now left|]. intros [Hin|[f [[] _]]]. exact Hin.
Qed.

Lemma checkSelectFields_In (fields : list FieldPath) (s : string) :
  In s (checkSelectFields W doc fields)
  <-> exists field, In field fields
                    /\ include_filename field = false
                    /\ Observed.ambiguousIn W doc field
                    /\ s = pathToString field.
Proof.
  unfold checkSelectFields, Observed.ambiguousIn. rewrite in_flat_map.
  split.
  - intros [field [Hin Hs]]. exists field.
    destruct (include_filename field); [contradiction|].
    destruct (Nat.ltb_spec (List.length (components field)) 2) as [Hlen|Hlen];
      [contradiction|].
    destruct (Z.ltb_spec 1 (countMatchingPaths (nav W) doc (components field)))
      as [Hcount|Hcount]; [|contradiction].
    destruct Hs as [<-|[]]. repeat split; assumption.
  - intros [field [Hin [Hinc [[Hlen Hcount] ->]]]]. exists field.
    split; [exact Hin|]. rewrite Hinc.
    destruct (Nat.ltb_spec (List.length (components field)) 2) as [Hlt|_];
      [lia|].
    destruct (Z.ltb_spec 1 (countMatchingPaths (nav W) doc (components field)))
      as [_|Hle]; [now left|lia].
Qed.

End Ambiguity.

(** X12: when the first file of the path loads,
    [checkForAmbiguousAttributes] reports exactly the dotted forms of the
    paths of two or more components that match more than one place of
    that first file and are either a select field other than the source
    identifier or the field of some condition of the WHERE expression;
    no other file is looked at. *)
Theorem X12_ambiguity_report (W : World) (q : Query) (first : string)
  (others : list string) (doc : xml_tree) :
  fst (getXmlFiles W (from_path q)) = first :: others ->
  load (loader W) first = inl doc ->
  exists reported : list string,
    checkForAmbiguousAttributes W q = inl reported
    /\ forall s : string,
         In s reported
         <-> exists field : FieldPath,
               (In field (select_fields q) /\ include_filename field = false
                \/ exists w, where_ q = Some w
                             /\ In field (Observed.whereFields w))
               /\ Observed.ambiguousIn W doc field
               /\ s = pathToString field.
Proof.
  intros Hfiles Hload. unfold checkForAmbiguousAttributes.
  rewrite Hfiles, Hload.
  destruct (where_ q) as [w|]; eexists; (split; [reflexivity|]); intros s.
  - rewrite checkWhereFields_In, checkSelectFields_In. split.
    + intros [[f [Hin [Hinc Hrest]]]|[f [Hin Hrest]]]; exists f.
      * split; [now left | exact Hrest].
      * split; [right; now exists w | exact Hrest].
    + intros [f [[[Hin Hinc]|[w' [Hw Hin]]] Hrest]].
      * left. now exists f.
      * injection Hw as <-. right. now exists f.
  - rewrite checkSelectFields_In. split.
    + intros [f [Hin [Hinc Hrest]]]. exists f. split; [now left | exact Hrest].
    + intros [f [[[Hin Hinc]|[w' [Hw _]]] Hrest]]; [|discriminate].
      now exists f.
Qed.

Lemma X12_ambiguity_report_witness :
  exists reported : list string,
    checkForAmbiguousAttributes
      (Sample.world "data" [("data/a.xml", inl Sample.twiceDoc)] 4)
      Sample.onceQuery = inl reported
    /\ forall s : string,
         In s reported
         <-> exists field : FieldPath,
               (In field (select_fields Sample.onceQuery)
                /\ include_filename field = false
                \/ exists w, where_ Sample.onceQuery = Some w
                             /\ In field (Observed.whereFields w))
               /\ Observed.ambiguousIn
                    (Sample.world "data" [("data/a.xml", inl Sample.twiceDoc)] 4)
                    Sample.twiceDoc field
               /\ s = pathToString field.
Proof.
  apply (X12_ambiguity_report
           (Sample.world "data" [("data/a.xml", inl Sample.twiceDoc)] 4)
           Sample.onceQuery "data/a.xml" [] Sample.twiceDoc).
  - vm_compute. reflexivity.
  - vm_compute. reflexivity.
Defined.

(** X16: an exception thrown while the first file is loaded leaves
    [checkForAmbiguousAttributes], which has no handler, whereas [execute]
    catches it, writes the error line for that file and goes on with the
    other files. *)
Theorem X16_first_file_fails_to_load (W : World) (q : Query)
  (first : string) (others : list string) (what : string) :
  fst (getXmlFiles W (from_path q)) = first :: others ->
  load (loader W) first = inr what ->
  checkForAmbiguousAttributes W q = inr what
  /\ cerr (execute W q)
     = snd (getXmlFiles W (from_path q))
       ++ errorLine first what :: Stated.failureLines W q others
  /\ allResults (execute W q)
     = applyLimit q (applyOrderBy W q (Stated.sequentialRows W q others)).
Proof.
  intros Hfiles Hload. split.
  - unfold checkForAmbiguousAttributes. now rewrite Hfiles, Hload.
  - unfold execute.
    destruct (getXmlFiles W (from_path q)) as [xmlFiles scanLog].
    cbn [fst snd] in *. subst xmlFiles.
    cbn [fold_left]. rewrite fold_processNext.
    unfold processNext, processFile. rewrite Hload. cbn [allResults cerr].
    rewrite <- app_assoc. split; reflexivity.
Qed.

Lemma X16_first_file_fails_to_load_witness :
  let W := Sample.world "data"
             [("data/a.xml", inr "bad"); ("data/b.xml", inl Sample.twiceDoc)] 4 in
  checkForAmbiguousAttributes W Sample.onceQuery = inr "bad"
  /\ cerr (execute W Sample.onceQuery)
     = snd (getXmlFiles W (from_path Sample.onceQuery))
       ++ errorLine "data/a.xml" "bad"
          :: Stated.failureLines W Sample.onceQuery ["data/b.xml"]
  /\ allResults (execute W Sample.onceQuery)
     = applyLimit Sample.onceQuery
         (applyOrderBy W Sample.onceQuery
            (Stated.sequentialRows W Sample.onceQuery ["data/b.xml"])).
Proof.
  intros W.
  apply (X16_first_file_fails_to_load W Sample.onceQuery
           "data/a.xml" ["data/b.xml"] "bad").
  - vm_compute. reflexivity.
  - vm_compute. reflexivity.
Defined.

(** ** ORDER BY on a name that is no column *)

Lemma processFile_columns (W : World) (filepath : string) (q : Query)
  (emitted : list ResultRow) (row : ResultRow) :
  processFile W filepath q = inl emitted ->
  In row emitted ->
  map fst row = map fieldName (select_fields q).
Proof.
  intros Hrun Hin. unfold processFile in Hrun.
  destruct (load (loader W) filepath) as [doc|what]; [|discriminate].
  assert (Hall : Forall (fun row => map fst row = map fieldName (select_fields q))
                        emitted).
  { destruct (for_clauses q) as [|c cs] eqn:Hfor.
    - destruct (where_ q) as [w|]; injection Hrun as <-.
      + apply filterByWhere_names.
      + apply projectAll_names.
    - injection Hrun as <-. apply processFileWithForClauses_names. }
  rewrite Forall_forall in Hall. exact (Hall row Hin).
Qed.

Lemma sortValue_absent (orderField : string) (row : ResultRow) :
  ~ In orderField (map fst row) -> sortValue orderField row = "".
Proof.
  induction row as [|[field v] row IH]; intros Hno; simpl; [reflexivity|].
  unfold Cxx.string_eq. destruct (String.eqb_spec field orderField) as [->|_].
  - elim Hno. now left.
  - apply IH. intros Hin. apply Hno. now right.
Qed.

(** X14: the ORDER BY field is looked up among the column names of the
    rows.  If it is none of the column names of the query (the last
    component of a select field, or [FILE_NAME]), the comparator handed to
    [std::sort] finds the empty string in both rows and answers false for
    every two rows the query emits: the sort is given no order at all. *)
Theorem X14_order_by_unselected_field (W : World) (q : Query)
  (orderField : string) (file1 file2 : string)
  (rows1 rows2 : list ResultRow) (a b : ResultRow) :
  ~ In orderField (map fieldName (select_fields q)) ->
  processFile W file1 q = inl rows1 -> In a rows1 ->
  processFile W file2 q = inl rows2 -> In b rows2 ->
  sortValue orderField a = ""
  /\ sortValue orderField b = ""
  /\ orderByLess orderField a b = false.
Proof.
  intros Hno Hrun1 Ha Hrun2 Hb.
  assert (Hva : sortValue orderField a = "").
  { apply sortValue_absent.
    now rewrite (processFile_columns W file1 q rows1 a Hrun1 Ha). }
  assert (Hvb : sortValue orderField b = "").
  { apply sortValue_absent.
    now rewrite (processFile_columns W file2 q rows2 b Hrun2 Hb). }
  split; [exact Hva|]. split; [exact Hvb|].
  unfold orderByLess. rewrite Hva, Hvb. vm_compute. reflexivity.
Qed.

Lemma X14_order_by_unselected_field_witness :
  sortValue "a.b" [("b", "1")] = ""
  /\ sortValue "a.b" [("b", "2")] = ""
  /\ orderByLess "a.b" [("b", "1")] [("b", "2")] = false.
Proof.
  apply (X14_order_by_unselected_field
           (Sample.world "data" [("data/a.xml", inl Sample.twiceDoc)] 4)
           (mkQuery [Sample.field ["a"; "b"]] "data" None [] ["a.b"] (-1))
           "a.b" "data/a.xml" "data/a.xml"
           [[("b", "1")]; [("b", "2")]] [[("b", "1")]; [("b", "2")]]
           [("b", "1")] [("b", "2")]).
  - simpl. intros [H|[]]. discriminate H.
  - vm_compute. reflexivity.
  - simpl. left. reflexivity.
  - vm_compute. reflexivity.
  - simpl. right. left. reflexivity.
Defined.

(** ** WHERE on a path of two or more components *)

Lemma removelast_length (A : Type) (l : list A) :
  List.length (removelast l) = List.length l - 1.
Proof.
  induction l as [|x [|y l] IH]; try reflexivity.
  change (removelast (x :: y :: l)) with (x :: removelast (y :: l)).
  cbn [List.length] in *. lia.
Qed.

(** X15: without a FOR clause, when the first condition of the WHERE
    expression names a path of two or more components, [processFile] takes
    as candidates the nodes the navigator finds for that path without its
    last component, looked up from the document, and emits one row for
    each candidate at which the whole WHERE expression holds, evaluated
    at a depth of one less than the number of components, in the order of
    the candidates. *)
Theorem X15_where_on_longer_path (W : World) (filepath : string)
  (q : Query) (doc : xml_tree) (w : WhereExpr) :
  load (loader W) filepath = inl doc ->
  for_clauses q = [] ->
  where_ q = Some w ->
  2 <= List.length (components (extractFieldPathFromWhere (Some w))) ->
  let anchor := components (extractFieldPathFromWhere (Some w)) in
  processFile W filepath q
  = inl (map (selectRow W doc (Cxx.filename filepath) q)
           (filter (fun node =>
                      evaluateWhereExpr (nav W) doc node w
                        (List.length anchor - 1))
                   (findNodesByPartialPath (nav W) doc doc_node
                      (removelast anchor)))).
Proof.
  intros Hload Hfor Hw Hlen anchor.
  unfold processFile. rewrite Hload, Hfor, Hw. f_equal.
  unfold filterByWhere. fold anchor.
  destruct (Nat.ltb_spec (List.length anchor) 2) as [Hlt|_];
    [unfold anchor in Hlt; lia|].
  rewrite removelast_length.
  induction (findNodesByPartialPath (nav W) doc doc_node (removelast anchor))
    as [|node nodes IH]; simpl; [reflexivity|].
  rewrite IH.
  destruct (evaluateWhereExpr (nav W) doc node w (List.length anchor - 1));
    reflexivity.
Qed.

Lemma X15_where_on_longer_path_witness :
  processFile (Sample.world "data" [("data/a.xml", inl Sample.twiceDoc)] 4)
    "data/a.xml" Sample.onceQuery
  = inl (map (selectRow
                (Sample.world "data" [("data/a.xml", inl Sample.twiceDoc)] 4)
                Sample.twiceDoc (Cxx.filename "data/a.xml") Sample.onceQuery)
           (filter (fun node =>
                      evaluateWhereExpr
                        (nav (Sample.world "data"
                                [("data/a.xml", inl Sample.twiceDoc)] 4))
                        Sample.twiceDoc node
                        (WhereLogical AND
                           (Some (WhereCondition (Sample.field ["a"; "b"]) EQ
                                    (Some "1") true))
                           (Some (WhereCondition (Sample.field ["a"; "b"]) EQ
                                    (Some "1") true)))
                        (List.length ["a"; "b"] - 1))
                   (findNodesByPartialPath
                      (nav (Sample.world "data"
                              [("data/a.xml", inl Sample.twiceDoc)] 4))
                      Sample.twiceDoc doc_node (removelast ["a"; "b"])))).
Proof.
  apply (X15_where_on_longer_path
           (Sample.world "data" [("data/a.xml", inl Sample.twiceDoc)] 4)
           "data/a.xml" Sample.onceQuery Sample.twiceDoc
           (WhereLogical AND
              (Some (WhereCondition (Sample.field ["a"; "b"]) EQ
                       (Some "1") true))
              (Some (WhereCondition (Sample.field ["a"; "b"]) EQ
                       (Some "1") true)))).
  - vm_compute. reflexivity.
  - reflexivity.
  - reflexivity.
  - simpl. lia.
Defined.

(** ** The size of the strides *)

Lemma stridedIndices_count (T n : nat) :
  1 <= T ->
  forall fuel idx,
    n <= idx + fuel ->
    List.length (stridedIndices fuel idx n T) = (n - idx + T - 1) / T.
Proof.
  intros HT. induction fuel as [|fuel IH]; intros idx Hfuel.
  - replace (n - idx + T - 1) with (T - 1) by lia.
    rewrite Nat.div_small by lia. reflexivity.
  - cbn [stridedIndices].
    destruct (Nat.ltb_spec idx n) as [Hlt|Hge].
    + cbn [List.length]. rewrite IH by lia.
      destruct (Nat.le_gt_cases T (n - idx)) as [Hfar|Hnear].
      * replace (n - idx + T - 1) with (n - (idx + T) + T - 1 + 1 * T) by lia.
        rewrite Nat.div_add by lia. lia.
      * replace (n - (idx + T) + T - 1) with (T - 1) by lia.
        replace (n - idx + T - 1) with (n - idx - 1 + 1 * T) by lia.
        rewrite Nat.div_add by lia.
        rewrite !Nat.div_small by lia. reflexivity.
    + replace (n - idx + T - 1) with (T - 1) by lia.
      rewrite Nat.div_small by lia. reflexivity.
Qed.

(** X17: worker [k] of [T] visits [ceil ((n - k) / T)] of the [n] files,
    so an earlier worker never has fewer files than a later one and never
    more than one file more. *)
Theorem X17_stride_sizes (n T j k : nat) :
  j <= k -> k < T ->
  List.length (workerFiles n T k) = (n - k + T - 1) / T
  /\ List.length (workerFiles n T k) <= List.length (workerFiles n T j)
  /\ List.length (workerFiles n T j) <= List.length (workerFiles n T k) + 1.
Proof.
  intros Hjk HkT. unfold workerFiles.
  rewrite !stridedIndices_count by lia.
  split; [reflexivity|]. split.
  - apply Nat.Div0.div_le_mono; lia.
  - replace ((n - k + T - 1) / T + 1) with ((n - k + T - 1 + 1 * T) / T)
      by (rewrite Nat.div_add by lia; reflexivity).
    apply Nat.Div0.div_le_mono; lia.
Qed.

Lemma X17_stride_sizes_witness :
  List.length (workerFiles 5 2 1) = (5 - 1 + 2 - 1) / 2
  /\ List.length (workerFiles 5 2 1) <= List.length (workerFiles 5 2 0)
  /\ List.length (workerFiles 5 2 0) <= List.length (workerFiles 5 2 1) + 1.
Proof.
  apply (X17_stride_sizes 5 2 0 1); lia.
Defined.
